(** * The Trilium custom request handler [res/trilium_handler.js]

    A shallow embedding of the handler script and of the parts of the
    JavaScript language it relies on ([===], [==] against a string literal,
    string concatenation, [typeof], [Reflect.apply], [JSON.stringify] with a
    replacer function), followed by the properties of the dispatcher.

    The script talks to two collaborators that are not part of the
    repository: the host's scripting object [api] (notes, branches,
    attributes, the SQL facade, the log) and the response object [res].
    Every call the script makes on them is recorded, in program order, in a
    trace of events; what the host answers is given by a record [Host]. *)

From Stdlib Require Import ZArith List String Ascii Bool Lia.
From Stdlib Require Import DecimalString.
From Stdlib Require DecimalFacts DecimalPos DecimalZ.
Import ListNotations.
Local Open Scope list_scope.
Local Open Scope string_scope.

(** ** Numbers *)

(** A Number of the language.  A finite number other than zero is kept as
    the language itself prints it ([Number::toString]): its sign, the
    shortest run of decimal digits [digits] that identifies it, and the
    position [point] of the decimal point, so that the number is
    [0.digits] times ten to the [point].  [digits] starts and ends with a
    digit other than [0] ([well_formed_number]).  The two zeros are one:
    the script cannot tell them apart. *)
Inductive number : Type :=
| NaN
| Infinity (negative : bool)
| Zero
| Finite (negative : bool) (digits : string) (point : Z).

Definition is_digit (c : ascii) : bool :=
  let n := N_of_ascii c in ((48 <=? n) && (n <=? 57))%N.

Fixpoint all_digits (s : string) : bool :=
  match s with
  | "" => true
  | String c s' => is_digit c && all_digits s'
  end.

Fixpoint zeros (n : nat) : string :=
  match n with
  | O => ""
  | S n' => String "0" (zeros n')
  end.

Fixpoint strip_leading_zeros (s : string) : string :=
  match s with
  | String c s' => if Ascii.eqb c "0" then strip_leading_zeros s' else s
  | "" => ""
  end.

Fixpoint strip_trailing_zeros (s : string) : string :=
  match s with
  | "" => ""
  | String c s' =>
      match strip_trailing_zeros s' with
      | "" => if Ascii.eqb c "0" then "" else String c ""
      | r => String c r
      end
  end.

(** Digits only, the first and the last of them not [0]. *)
Definition well_formed_digits (s : string) : bool :=
  all_digits s
  && match s with
     | String c _ => negb (Ascii.eqb c "0")
     | "" => false
     end
  && String.eqb (strip_trailing_zeros s) s.

Definition well_formed_number (x : number) : bool :=
  match x with
  | Finite _ digits _ => well_formed_digits digits
  | _ => true
  end.

Definition is_finite (x : number) : bool :=
  match x with
  | NaN | Infinity _ => false
  | _ => true
  end.

Fixpoint take (n : nat) (s : string) : string :=
  match n, s with
  | S n', String c s' => String c (take n' s')
  | _, _ => ""
  end.

Fixpoint drop (n : nat) (s : string) : string :=
  match n, s with
  | S n', String c s' => drop n' s'
  | _, _ => s
  end.

(** The decimal digits of an integer, with a minus sign when negative. *)
Definition integer_to_string (n : Z) : string :=
  NilZero.string_of_int (Z.to_int n).

(** [Number::toString(x)] in radix 10: with [k] digits and the point after
    [n] of them, an integer of at most 21 digits is written in full, a
    number with the point inside the digits or up to six zeros after it is
    written with a point, and any other in exponent form. *)
Definition number_to_string (x : number) : string :=
  match x with
  | NaN => "NaN"
  | Infinity negative => if negative then "-Infinity" else "Infinity"
  | Zero => "0"
  | Finite negative digits n =>
      let k := Z.of_nat (String.length digits) in
      (if negative then "-" else "") ++
      (if (k <=? n)%Z && (n <=? 21)%Z then
         digits ++ zeros (Z.to_nat (n - k))
       else if (0 <? n)%Z && (n <=? 21)%Z then
         take (Z.to_nat n) digits ++ "." ++ drop (Z.to_nat n) digits
       else if (-6 <? n)%Z && (n <=? 0)%Z then
         "0." ++ zeros (Z.to_nat (- n)) ++ digits
       else
         (match digits with
          | String c "" => String c ""
          | String c rest => String c ("." ++ rest)
          | "" => ""
          end)
         ++ "e" ++ (if (n - 1 <? 0)%Z then "-" else "+")
         ++ integer_to_string (Z.abs (n - 1)))
  end.

(** The number an integer literal stands for. *)
Definition integer (z : Z) : number :=
  match z with
  | Z0 => Zero
  | Zpos p =>
      let s := NilEmpty.string_of_uint (Pos.to_uint p) in
      Finite false (strip_trailing_zeros s) (Z.of_nat (String.length s))
  | Zneg p =>
      let s := NilEmpty.string_of_uint (Pos.to_uint p) in
      Finite true (strip_trailing_zeros s) (Z.of_nat (String.length s))
  end.

(** The integer a number is, when it is one. *)
Definition number_integer (x : number) : option Z :=
  match x with
  | Zero => Some 0%Z
  | Finite negative digits n =>
      let k := Z.of_nat (String.length digits) in
      if (k <=? n)%Z then
        match NilEmpty.uint_of_string (digits ++ zeros (Z.to_nat (n - k))) with
        | Some d => Some (if negative then (- Z.of_uint d)%Z else Z.of_uint d)
        | None => None
        end
      else None
  | _ => None
  end.

(** [x === y] on numbers: NaN is equal to nothing. *)
Definition number_eqb (x y : number) : bool :=
  match x, y with
  | Infinity a, Infinity b => Bool.eqb a b
  | Zero, Zero => true
  | Finite a d n, Finite b e m => Bool.eqb a b && String.eqb d e && Z.eqb n m
  | _, _ => false
  end.

(** ** Values *)

(** Primitive values. *)
Inductive prim : Type :=
| Undefined
| Null
| Bool (b : bool)
| Num (x : number)
| BigInt (n : Z)
| Str (s : string).

(** Identity of a function object of the host. *)
Definition fn := nat.

(** A value is a primitive or an object: an array, an ordinary object with
    its own enumerable string-keyed properties in enumeration order, a
    function, or [Circular], a reference to an object that encloses it.  A
    value is what a walk through an object graph sees of it: a graph with a
    cycle is the finite tree down to the references that close the cycle.
    Objects are plain data, without getters or a [toJSON] method. *)
Unset Elimination Schemes.
Inductive value : Type :=
| Prim (p : prim)
| Arr (elems : list value)
| Obj (props : list (string * value))
| Fun (f : fn)
| Circular.
Set Elimination Schemes.

Coercion Prim : prim >-> value.

(** Induction on values, with the hypothesis for every element of an array
    and every property of an object. *)
Definition value_ind (P : value -> Prop)
    (Hprim : forall p, P (Prim p))
    (Harr : forall elems, Forall P elems -> P (Arr elems))
    (Hobj : forall props, Forall (fun kx => P (snd kx)) props -> P (Obj props))
    (Hfun : forall f, P (Fun f))
    (Hcircular : P Circular) : forall v, P v :=
  fix go (v : value) : P v :=
    match v with
    | Prim p => Hprim p
    | Arr elems =>
        Harr elems
          ((fix all (l : list value) : Forall P l :=
              match l with
              | [] => Forall_nil P
              | x :: l' => Forall_cons x (go x) (all l')
              end) elems)
    | Obj props =>
        Hobj props
          ((fix all (l : list (string * value))
              : Forall (fun kx => P (snd kx)) l :=
              match l with
              | [] => Forall_nil _
              | kx :: l' => Forall_cons kx (go (snd kx)) (all l')
              end) props)
    | Fun f => Hfun f
    | Circular => Hcircular
    end.

(** An object of the host's graph; [Api] is the script's global [api]. *)
Inductive object : Type :=
| Api
| HostObject (id : nat).

(** What the script holds in [obj]: a host lookup answers with an object or
    with [null]/[undefined] when there is none. *)
Inductive handle : Type :=
| HNull
| HUndefined
| HObject (o : object).

(** A thrown value: an [Error] instance, of which [String(e)] reads the name
    and the message, or a primitive. *)
Inductive exn : Type :=
| ErrorObject (name message : string)
| Thrown (p : prim).

Definition TypeError (message : string) : exn := ErrorObject "TypeError" message.
Definition RangeError (message : string) : exn := ErrorObject "RangeError" message.

Inductive result (A : Type) : Type :=
| Ok (a : A)
| Throw (e : exn).
Arguments Ok {A} a.
Arguments Throw {A} e.

(** ** Language operations used by the script *)

Definition prim_eqb (a b : prim) : bool :=
  match a, b with
  | Undefined, Undefined => true
  | Null, Null => true
  | Bool x, Bool y => Bool.eqb x y
  | Num x, Num y => number_eqb x y
  | BigInt x, BigInt y => Z.eqb x y
  | Str x, Str y => String.eqb x y
  | _, _ => false
  end.

(** [v === p] where [v] comes from the request and [p] from the host: two
    primitives of the same type and value; an object of the request is a
    fresh one, identical to nothing the host holds. *)
Definition strict_eq (v : value) (p : prim) : bool :=
  match v with
  | Prim q => prim_eqb q p
  | _ => false
  end.

(** [ToString] of a primitive. *)
Definition to_string (p : prim) : string :=
  match p with
  | Undefined => "undefined"
  | Null => "null"
  | Bool true => "true"
  | Bool false => "false"
  | Num x => number_to_string x
  | BigInt n => integer_to_string n
  | Str s => s
  end.

(** [typeof v]. *)
Definition typeof (v : value) : string :=
  match v with
  | Prim Undefined => "undefined"
  | Prim Null => "object"
  | Prim (Bool _) => "boolean"
  | Prim (Num _) => "number"
  | Prim (BigInt _) => "bigint"
  | Prim (Str _) => "string"
  | Arr _ | Obj _ | Circular => "object"
  | Fun _ => "function"
  end.

(** [Error.prototype.toString] for an [Error] instance, [ToString] for a
    thrown primitive: this is [String(e)]. *)
Definition exn_to_string (e : exn) : string :=
  match e with
  | ErrorObject name message =>
      if String.eqb name "" then message
      else if String.eqb message "" then name
      else name ++ ": " ++ message
  | Thrown p => to_string p
  end.

(** ** JSON.stringify *)

Definition dquote : ascii := ascii_of_nat 34.
Definition backslash : ascii := ascii_of_nat 92.

Definition hex_digit (n : N) : ascii :=
  if (n <? 10)%N then ascii_of_N (48 + n) else ascii_of_N (87 + n).

(** One code unit inside a JSON string literal (QuoteJSONString): the two
    characters that must be escaped, the short escapes, [\u00xx] for the
    other control characters, and the character itself otherwise. *)
Definition escape_char (c : ascii) : string :=
  let n := N_of_ascii c in
  if (n =? 8)%N then "\b"
  else if (n =? 9)%N then "\t"
  else if (n =? 10)%N then "\n"
  else if (n =? 12)%N then "\f"
  else if (n =? 13)%N then "\r"
  else if (n =? 34)%N then String backslash (String dquote "")
  else if (n =? 92)%N then String backslash (String backslash "")
  else if (n <? 32)%N then
    "\u00" ++ String (hex_digit (n / 16)) (String (hex_digit (n mod 16)) "")
  else String c "".

Fixpoint quote_body (s : string) : string :=
  match s with
  | "" => ""
  | String c s' => escape_char c ++ quote_body s'
  end.

Definition QuoteJSONString (s : string) : string :=
  String dquote (quote_body s ++ String dquote "").

Fixpoint join (sep : string) (parts : list string) : string :=
  match parts with
  | [] => ""
  | [p] => p
  | p :: ps => p ++ sep ++ join sep ps
  end.

(** The key under which [JSON.stringify] presents element [i] of an array to
    the replacer: [ToString(i)]. *)
Definition index_key (i : nat) : string :=
  NilZero.string_of_uint (Nat.to_uint i).

Definition replacer_fn := string -> value -> value.

Definition or_null (x : option string) : string :=
  match x with
  | Some text => text
  | None => "null"
  end.

Section Properties.

(** SerializeJSONProperty, as the two loops below call it. *)
Variable property : string -> value -> result (option string).

(** SerializeJSONArray: every element is serialized under its index, in
    order; an element without a text is written [null]. *)
Fixpoint SerializeJSONArray (i : nat) (elems : list value)
  : result (list string) :=
  match elems with
  | [] => Ok []
  | x :: rest =>
      match property (index_key i) x with
      | Throw e => Throw e
      | Ok strP =>
          match SerializeJSONArray (S i) rest with
          | Throw e => Throw e
          | Ok partial => Ok (or_null strP :: partial)
          end
      end
  end.

(** SerializeJSONObject: every property is serialized under its key, in
    order; a property without a text is left out. *)
Fixpoint SerializeJSONObject (props : list (string * value))
  : result (list string) :=
  match props with
  | [] => Ok []
  | (P, x) :: rest =>
      match property P x with
      | Throw e => Throw e
      | Ok strP =>
          match SerializeJSONObject rest with
          | Throw e => Throw e
          | Ok partial =>
              Ok (match strP with
                  | Some text => (QuoteJSONString P ++ ":" ++ text) :: partial
                  | None => partial
                  end)
          end
      end
  end.

End Properties.

(** The errors of [JSON.stringify]; the message is the first line of the
    engine's. *)
Definition circular_structure : exn :=
  TypeError "Converting circular structure to JSON".
Definition bigint_not_serializable : exn :=
  TypeError "Do not know how to serialize a BigInt".
Definition stack_exhausted : exn :=
  RangeError "Maximum call stack size exceeded".

(** SerializeJSONProperty of the language specification, with a replacer
    function: the replacer is given the key and the value, and what it
    answers is serialized (the [toJSON] step before it does nothing on plain
    data).  The result is [Ok None] for [undefined] and [Ok (Some text)] for
    a JSON text; a number that is not finite is written [null]; a BigInt
    and an object that encloses itself make the call throw.  The replacer
    may answer with any value, so the recursion is on [fuel]: when [fuel]
    nested calls are not enough the call stack is exhausted. *)
Fixpoint SerializeJSONProperty (rep : replacer_fn) (fuel : nat)
    (key : string) (holder_value : value) {struct fuel}
  : result (option string) :=
  match fuel with
  | O => Throw stack_exhausted
  | S fuel' =>
      match rep key holder_value with
      | Prim Undefined => Ok None
      | Prim Null => Ok (Some "null")
      | Prim (Bool true) => Ok (Some "true")
      | Prim (Bool false) => Ok (Some "false")
      | Prim (Num x) =>
          Ok (Some (if is_finite x then number_to_string x else "null"))
      | Prim (BigInt _) => Throw bigint_not_serializable
      | Prim (Str s) => Ok (Some (QuoteJSONString s))
      | Fun _ => Ok None
      | Circular => Throw circular_structure
      | Arr elems =>
          match SerializeJSONArray (SerializeJSONProperty rep fuel') O elems with
          | Ok partial => Ok (Some ("[" ++ join "," partial ++ "]"))
          | Throw e => Throw e
          end
      | Obj props =>
          match SerializeJSONObject (SerializeJSONProperty rep fuel') props with
          | Ok partial => Ok (Some ("{" ++ join "," partial ++ "}"))
          | Throw e => Throw e
          end
      end
  end.

Fixpoint height (v : value) : nat :=
  match v with
  | Arr elems => S (fold_right (fun x h => Nat.max (height x) h) O elems)
  | Obj props => S (fold_right (fun kx h => Nat.max (height (snd kx)) h) O props)
  | _ => O
  end.

(** [JSON.stringify(v)] and [JSON.stringify(v, rep)].  Without a replacer
    every property is serialized as it is.  The fuel covers the depth of
    [v], which is what a replacer that answers with its argument or with a
    primitive needs ([SerializeJSONProperty_replacer] below). *)
Definition JSON_stringify (v : value) (rep : option replacer_fn)
  : result (option string) :=
  let r := match rep with Some r => r | None => fun _ x => x end in
  SerializeJSONProperty r (S (height v)) "" v.

(** [s + x] where [x] is the result of [JSON.stringify]: [undefined]
    concatenates as the word. *)
Definition concat_result (s : string) (x : option string) : string :=
  match x with
  | Some t => s ++ t
  | None => s ++ "undefined"
  end.

(** ** Effects: the trace monad *)

(** What [api.log] is given: a message text, or the caught value itself. *)
Inductive logged : Type :=
| LogText (s : string)
| LogExn (e : exn).

(** The calls the script makes on its collaborators, and the language
    operations whose mere occurrence the properties speak about. *)
Inductive event : Type :=
| EvGetLabel (name : string)          (* api.currentNote.getLabel(name) *)
| EvLog (msg : logged)                (* api.log(msg) *)
| EvGetNote (id : value)              (* api.getNote(id) *)
| EvGetBranch (id : value)            (* api.getBranch(id) *)
| EvGetAttribute (id : value)         (* api.getAttribute(id) *)
| EvSql                               (* api.sql *)
| EvGet (o : object) (key : string)   (* o[key] *)
| EvCall (f : fn) (this : handle) (args : list value)
                                      (* f applied to this and args *)
| EvStringify (v : value) (with_replacer : bool)
                                      (* JSON.stringify(v) / (v, replacer) *)
| EvStatus (code : Z)                 (* res.status(code) *)
| EvSend (payload : prim).            (* res.send(payload) *)

(** A computation of the script: the events so far, and a value or the
    exception that ended it. *)
Definition M (A : Type) : Type := (list event * result A)%type.

Definition ret {A} (a : A) : M A := ([], Ok a).

Definition bind {A B} (m : M A) (k : A -> M B) : M B :=
  match m with
  | (t, Ok a) => let (t', r) := k a in ((t ++ t')%list, r)
  | (t, Throw e) => (t, Throw e)
  end.

Definition throw {A} (e : exn) : M A := ([], Throw e).

Definition tell (ev : event) : M unit := ([ev], Ok tt).

Definition lift {A} (r : result A) : M A := ([], r).

(** [try { body } catch (e) { handler; return } rest]: the handler ends the
    script, the rest runs after a body that completed. *)
Definition try_catch {A B} (body : M A) (handler : exn -> M B) (rest : A -> M B)
  : M B :=
  match body with
  | (t, Ok a) => let (t', r) := rest a in ((t ++ t')%list, r)
  | (t, Throw e) => let (t', r) := handler e in ((t ++ t')%list, r)
  end.

Notation "x <- m ;; k" := (bind m (fun x => k))
  (at level 61, m at next level, right associativity).
Notation "m ;; k" := (bind m (fun _ => k))
  (at level 61, right associativity).

Definition trace {A} (m : M A) : list event := fst m.
Definition outcome {A} (m : M A) : result A := snd m.

(** ** The host *)

(** The preferred type of a conversion to a primitive: [+] and [==] ask
    without a preference, a property key asks for a string. *)
Inductive hint : Type :=
| HintDefault
| HintString.

(** What the host answers.  [currentNote_getLabel] is [None] when the label
    does not exist (the host returns [null]) and the label's [value]
    otherwise; [getNote], [getBranch] and [getAttribute] look an entity up
    by the [objid] they are given and answer with it or with [null], without
    throwing; [Get] reads a member of a host object, which may run a getter
    and throw; [Call] runs a host function and answers with what the
    function wrote to the log while it ran (the root object's own [log] is
    one of the functions a request can name) and with its result;
    [array_like] is the language's CreateListFromArrayLike on an object that
    is not an array (its [length] and indexed properties are coerced by
    rules that the script does not depend on); [to_primitive] is the
    conversion to a primitive of a value whose conversion runs code: a
    function, an object with a callable [toString] or [valueOf], a
    reference to an enclosing object.  A decoded JSON body holds none of
    these.  The lookups, reads and conversions are functions of their
    arguments: a read does not change what a later read answers, so the
    three reads of [obj[methodName]] on lines 25, 27 and 28 agree.  The one
    call that may change the host, [Call], is the last thing the script asks
    of it. *)
Record Host : Type := {
  currentNote_getLabel : string -> option prim;
  getNote : value -> handle;
  getBranch : value -> handle;
  getAttribute : value -> handle;
  sql : handle;
  Get : object -> string -> result value;
  Call : fn -> handle -> list value -> list logged * result value;
  array_like : value -> result (list value);
  to_primitive : hint -> value -> result prim
}.

(** The request body after destructuring (line 4): decoded JSON, of which
    the script checks nothing.  A field that is left out is [Undefined]. *)
Record body : Type := {
  pythonClientToken : value;
  objtype : value;
  objid : value;
  methodName : value;
  args : value
}.

Definition callable (v : value) : bool :=
  match v with
  | Fun _ => true
  | _ => false
  end.

Definition has_key (k : string) (props : list (string * value)) : bool :=
  existsb (fun kx => String.eqb (fst kx) k) props.

(** An own [toString] or [valueOf] that is a function. *)
Definition converts_by_code (props : list (string * value)) : bool :=
  existsb (fun kx =>
             (String.eqb (fst kx) "toString" || String.eqb (fst kx) "valueOf")
             && callable (snd kx)) props.

Definition not_primitive : exn :=
  TypeError "Cannot convert object to primitive value".

Section Handler.

Variable api : Host.

Definition api_log (msg : logged) : M unit := tell (EvLog msg).
Definition res_status (code : Z) : M unit := tell (EvStatus code).
Definition res_send (payload : prim) : M unit := tell (EvSend payload).

(** [ToPrimitive(v, hint)].  A primitive is itself.  An array has the
    inherited [toString], which joins the texts of its elements with commas,
    [undefined] and [null] giving the empty text.  An ordinary object whose
    own [toString] and [valueOf], if any, are data is ["[object Object]"]
    by the inherited [toString], unless an own [toString] hides it: then
    no method answers with a primitive and the conversion throws.  Both
    hints then agree. *)
Fixpoint ToPrimitive (h : hint) (v : value) : result prim :=
  match v with
  | Prim p => Ok p
  | Arr elems =>
      match
        (fix texts (l : list value) : result (list string) :=
           match l with
           | [] => Ok []
           | x :: l' =>
               match
                 match x with
                 | Prim Undefined | Prim Null => Ok ""
                 | _ =>
                     match ToPrimitive HintString x with
                     | Ok p => Ok (to_string p)
                     | Throw e => Throw e
                     end
                 end
               with
               | Throw e => Throw e
               | Ok t =>
                   match texts l' with
                   | Ok ts => Ok (t :: ts)
                   | Throw e => Throw e
                   end
               end
           end) elems
      with
      | Ok ts => Ok (Str (join "," ts))
      | Throw e => Throw e
      end
  | Obj props =>
      if converts_by_code props then to_primitive api h v
      else if has_key "toString" props then Throw not_primitive
      else Ok (Str "[object Object]")
  | Fun _ | Circular => to_primitive api h v
  end.

(** The text of [v] in [s + v], where [s] is a string. *)
Definition text_of (v : value) : result string :=
  match ToPrimitive HintDefault v with
  | Ok p => Ok (to_string p)
  | Throw e => Throw e
  end.

(** [ToPropertyKey(v)]: the key of [obj[v]]. *)
Definition ToPropertyKey (v : value) : result string :=
  match ToPrimitive HintString v with
  | Ok p => Ok (to_string p)
  | Throw e => Throw e
  end.

(** [lit == v] for a string literal [lit] that is not the text of a number:
    an object is compared by its primitive, and among the primitives only
    the same string is equal. *)
Definition loose_eq_tag (lit : string) (v : value) : result bool :=
  match ToPrimitive HintDefault v with
  | Ok (Str s) => Ok (String.eqb lit s)
  | Ok _ => Ok false
  | Throw e => Throw e
  end.

(** [api.currentNote.getLabel(name).value] *)
Definition getLabel_value (name : string) : M prim :=
  tell (EvGetLabel name) ;;
  match currentNote_getLabel api name with
  | Some v => ret v
  | None => throw (TypeError "Cannot read properties of null (reading 'value')")
  end.

(** The end of the engine's message for a read on [null] or [undefined]:
    it names the key. *)
Definition reading (name : value) : string :=
  match ToPropertyKey name with
  | Ok key => " (reading '" ++ key ++ "')"
  | Throw _ => ""
  end.

(** [obj[name]]: the object must be one, then the key is converted, then the
    member is read. *)
Definition get_member (obj : handle) (name : value) : M value :=
  match obj with
  | HNull =>
      throw (TypeError ("Cannot read properties of null" ++ reading name))
  | HUndefined =>
      throw (TypeError ("Cannot read properties of undefined" ++ reading name))
  | HObject o =>
      key <- lift (ToPropertyKey name) ;;
      tell (EvGet o key) ;;
      lift (Get api o key)
  end.

Definition CreateListFromArrayLike (v : value) : M (list value) :=
  match v with
  | Prim _ => throw (TypeError "CreateListFromArrayLike called on non-object")
  | Arr elems => ret elems
  | Obj _ | Fun _ | Circular => lift (array_like api v)
  end.

(** The host function runs: what it logs, then its result. *)
Definition host_call (f : fn) (this : handle) (l : list value) : M value :=
  (map EvLog (fst (Call api f this l)), snd (Call api f this l)).

(** [Reflect.apply(target, thisArgument, argumentsList)] *)
Definition Reflect_apply (target : value) (thisArgument : handle)
    (argumentsList : value) : M value :=
  match target with
  | Fun f =>
      l <- CreateListFromArrayLike argumentsList ;;
      tell (EvCall f thisArgument l) ;;
      host_call f thisArgument l
  | _ =>
      throw (TypeError
        "Function.prototype.apply was called on a value that is not a function")
  end.

Definition stringify (v : value) (rep : option replacer_fn) : M (option string) :=
  tell (EvStringify v (match rep with Some _ => true | None => false end)) ;;
  lift (JSON_stringify v rep).

(** Lines 37-43. *)
Definition replacer (key : string) (v : value) : value :=
  if String.eqb key "children" || String.eqb key "parents" then Prim Undefined
  else v.

(** Line 11: the operands are converted from left to right, then the
    message is logged. *)
Definition announce (b : body) : M unit :=
  kind <- lift (text_of (objtype b)) ;;
  id <- lift (text_of (objid b)) ;;
  name <- lift (text_of (methodName b)) ;;
  text <- stringify (args b) None ;;
  api_log (LogText
    (concat_result ("Executing " ++ kind ++ "(" ++ id ++ ")." ++ name ++ "(")
       text ++ ")")).

(** Lines 14-23: the target object. *)
Definition resolve (objtype objid : value) : M handle :=
  is_note <- lift (loose_eq_tag "note" objtype) ;;
  if is_note : bool then
    tell (EvGetNote objid) ;; ret (getNote api objid)
  else
    is_branch <- lift (loose_eq_tag "branch" objtype) ;;
    if is_branch : bool then
      tell (EvGetBranch objid) ;; ret (getBranch api objid)
    else
      is_attribute <- lift (loose_eq_tag "attribute" objtype) ;;
      if is_attribute : bool then
        tell (EvGetAttribute objid) ;; ret (getAttribute api objid)
      else
        is_sql <- lift (loose_eq_tag "sql" objtype) ;;
        if is_sql : bool then
          tell EvSql ;; ret (sql api)
        else ret (HObject Api).

(** Lines 27-29: the body of the [try] block; [ret0] is the member read on
    line 25. *)
Definition invoke (obj : handle) (name : value) (args : value) (ret0 : value)
  : M value :=
  m <- get_member obj name ;;
  if String.eqb "function" (typeof m) then
    target <- get_member obj name ;;
    Reflect_apply target obj args
  else ret ret0.

Definition is_null (v : value) : bool :=
  match v with
  | Prim Null => true
  | _ => false
  end.

Definition payload (x : option string) : prim :=
  match x with
  | Some text => Str text
  | None => Undefined
  end.

(** Lines 45-51: the return value is logged and answered. *)
Definition respond (r : value) : M unit :=
  text <- stringify r (Some replacer) ;;
  api_log (LogText (concat_result "Return value " text)) ;;
  if negb (is_null r) then
    res_status 201 ;;
    text' <- stringify r (Some replacer) ;;
    res_send (payload text')
  else
    res_send (Num (integer 400)).

(** Lines 31-35: the [catch] block. *)
Definition report (e : exn) : M unit :=
  api_log (LogExn e) ;;
  res_status 500 ;;
  res_send (Str (exn_to_string e)).

(** Lines 11-51: what the script does for a request that passed the token
    check. *)
Definition serve (b : body) : M unit :=
  announce b ;;
  obj <- resolve (objtype b) (objid b) ;;
  ret0 <- get_member obj (methodName b) ;;
  try_catch (invoke obj (methodName b) (args b) ret0) report respond.

(** The script. *)
Definition handler (b : body) : M unit :=
  expected <- getLabel_value "pythonClientToken" ;;
  if negb (strict_eq (pythonClientToken b) expected) then
    res_send (Num (integer 401))
  else
    serve b.

End Handler.

(** ** The response and the log, read off a trace *)

Record response : Type := {
  statusCode : Z;
  body_text : option string
}.

(** Modelled from the spec: the response object [res] is the host's (Express)
    and its code is not in the repository.  [res.status(c)] sets the status
    code (200 until then); the first [res.send] completes the response: an
    integer given to [send] is the status code and leaves the body empty
    (the table of section 6), a string is the body, [undefined] and [null]
    give no body. *)
Fixpoint res_calls (code : Z) (t : list event) : option response :=
  match t with
  | [] => None
  | EvStatus c :: t' => res_calls c t'
  | EvSend (Num x) :: _ =>
      match number_integer x with
      | Some n => Some {| statusCode := n; body_text := None |}
      | None => Some {| statusCode := code; body_text := Some (number_to_string x) |}
      end
  | EvSend (Str s) :: _ => Some {| statusCode := code; body_text := Some s |}
  | EvSend (Bool b) :: _ =>
      Some {| statusCode := code; body_text := Some (to_string (Bool b)) |}
  | EvSend _ :: _ => Some {| statusCode := code; body_text := None |}
  | _ :: t' => res_calls code t'
  end.

(** The response of a run, [None] when the script never sent one. *)
Definition response_of (t : list event) : option response := res_calls 200 t.

(** What was logged, in order. *)
Fixpoint log_of (t : list event) : list logged :=
  match t with
  | [] => []
  | EvLog msg :: t' => msg :: log_of t'
  | _ :: t' => log_of t'
  end.

Definition is_res (ev : event) : bool :=
  match ev with
  | EvStatus _ | EvSend _ => true
  | _ => false
  end.

Definition is_log (ev : event) : bool :=
  match ev with
  | EvLog _ => true
  | _ => false
  end.

(** Object resolution, member access and invocation events. *)
Definition is_dispatch (ev : event) : bool :=
  match ev with
  | EvGetNote _ | EvGetBranch _ | EvGetAttribute _ | EvSql
  | EvGet _ _ | EvCall _ _ _ => true
  | _ => false
  end.

Definition is_call (ev : event) : bool :=
  match ev with
  | EvCall _ _ _ => true
  | _ => false
  end.

(** [res.send] with a text. *)
Definition sends_text (ev : event) : bool :=
  match ev with
  | EvSend (Str _) => true
  | _ => false
  end.

Definition is_result_stringify (ev : event) : bool :=
  match ev with
  | EvStringify _ true => true
  | _ => false
  end.

(** ** Requests that pass the token check, and their invocation *)

(** The label exists and the token is strictly equal to its value. *)
Definition authenticated (api : Host) (b : body) : Prop :=
  exists expected,
    currentNote_getLabel api "pythonClientToken" = Some expected /\
    strict_eq (pythonClientToken b) expected = true.

(** Line 11 completes: the three fields have a text and [args] can be
    serialized. *)
Definition announced (api : Host) (b : body) : Prop :=
  outcome (announce api b) = Ok tt.

(** Lines 14-25: the target is resolved and the member is read, before the
    [try] block is entered. *)
Definition lookup (api : Host) (b : body) : M (handle * value) :=
  obj <- resolve api (objtype b) (objid b) ;;
  ret0 <- get_member api obj (methodName b) ;;
  ret (obj, ret0).

(** Lines 14-30 in one piece: the lookup, then the [try] block. *)
Definition invocation (api : Host) (b : body) : M value :=
  found <- lookup api b ;;
  invoke api (fst found) (methodName b) (args b) (snd found).

(** The events of lines 6-11 for a request that passes the token check. *)
Definition preamble (api : Host) (b : body) : list event :=
  EvGetLabel "pythonClientToken" :: trace (announce api b).

(** What follows the [try] statement: the [catch] block, or lines 45-51. *)
Definition after_try (r : result value) : M unit :=
  match r with
  | Ok v => respond v
  | Throw e => report e
  end.

Definition finish (r : result value) : list event := trace (after_try r).

(** ** JSON.stringify by structural recursion, and the filtered value *)

Definition filtered (key : string) : bool :=
  String.eqb key "children" || String.eqb key "parents".

(** [JSON.stringify(v)] without a replacer: [undefined] and functions have no
    text, are [null] inside an array and are left out of an object. *)
Fixpoint serialize (v : value) : result (option string) :=
  match v with
  | Prim Undefined => Ok None
  | Prim Null => Ok (Some "null")
  | Prim (Bool true) => Ok (Some "true")
  | Prim (Bool false) => Ok (Some "false")
  | Prim (Num x) => Ok (Some (if is_finite x then number_to_string x else "null"))
  | Prim (BigInt _) => Throw bigint_not_serializable
  | Prim (Str s) => Ok (Some (QuoteJSONString s))
  | Fun _ => Ok None
  | Circular => Throw circular_structure
  | Arr elems =>
      match SerializeJSONArray (fun _ x => serialize x) O elems with
      | Ok partial => Ok (Some ("[" ++ join "," partial ++ "]"))
      | Throw e => Throw e
      end
  | Obj props =>
      match SerializeJSONObject (fun _ x => serialize x) props with
      | Ok partial => Ok (Some ("{" ++ join "," partial ++ "}"))
      | Throw e => Throw e
      end
  end.

(** [v] without the properties whose key [drop] selects, at every depth. *)
Fixpoint omit_keys (drop : string -> bool) (v : value) : value :=
  match v with
  | Arr elems => Arr (map (omit_keys drop) elems)
  | Obj props =>
      Obj (flat_map (fun '(k, x) =>
             if drop k then [] else [(k, omit_keys drop x)]) props)
  | _ => v
  end.

(** [v] without the properties named [children] or [parents], at every
    depth. *)
Definition omit_filtered (v : value) : value := omit_keys filtered v.

(** No property named [children] or [parents] anywhere in [v]. *)
Fixpoint no_filtered_key (v : value) : bool :=
  match v with
  | Arr elems => forallb no_filtered_key elems
  | Obj props =>
      forallb (fun '(k, x) => negb (filtered k) && no_filtered_key x) props
  | _ => true
  end.

(** JSON-safe: built from [null], booleans, finite numbers, strings, arrays
    and objects only. *)
Fixpoint json_safe (v : value) : bool :=
  match v with
  | Prim Null | Prim (Bool _) | Prim (Str _) => true
  | Prim (Num x) => is_finite x && well_formed_number x
  | Prim Undefined | Prim (BigInt _) => false
  | Fun _ | Circular => false
  | Arr elems => forallb json_safe elems
  | Obj props => forallb (fun '(_, x) => json_safe x) props
  end.





(** Two values that differ only in what stands under keys named [children]
    or [parents]. *)
Unset Elimination Schemes.
Set Elimination Schemes.

(** ** Decoding a JSON text *)

(** The client decodes the body of a 201 response as JSON.  The decoder
    below reads the JSON grammar (RFC 8259) into a [value]: insignificant
    white space is skipped, the members of an object are kept in the order
    of the text, a number is the decimal number its text denotes (the text
    the script sends is the shortest that identifies the number, so this is
    the number sent); a [\u] escape above 255 is outside the strings of the
    model. *)

Definition is_ws (c : ascii) : bool :=
  let n := N_of_ascii c in
  ((n =? 32) || (n =? 9) || (n =? 10) || (n =? 13))%N.

Fixpoint skip_ws (s : string) : string :=
  match s with
  | String c s' => if is_ws c then skip_ws s' else s
  | "" => ""
  end.

Definition hex_value (c : ascii) : option N :=
  let n := N_of_ascii c in
  if ((48 <=? n) && (n <=? 57))%N then Some (n - 48)%N
  else if ((97 <=? n) && (n <=? 102))%N then Some (n - 87)%N
  else if ((65 <=? n) && (n <=? 70))%N then Some (n - 55)%N
  else None.

(** The character a two-character escape stands for. *)
Definition unescape (c : ascii) : option ascii :=
  let n := N_of_ascii c in
  if (n =? 34)%N then Some dquote
  else if (n =? 92)%N then Some backslash
  else if (n =? 47)%N then Some "/"%char
  else if (n =? 98)%N then Some (ascii_of_N 8)
  else if (n =? 102)%N then Some (ascii_of_N 12)
  else if (n =? 110)%N then Some (ascii_of_N 10)
  else if (n =? 114)%N then Some (ascii_of_N 13)
  else if (n =? 116)%N then Some (ascii_of_N 9)
  else None.

Definition code_unit (h1 h2 h3 h4 : ascii) : option ascii :=
  match hex_value h1, hex_value h2, hex_value h3, hex_value h4 with
  | Some a, Some b, Some c, Some d =>
      let n := (((a * 16 + b) * 16 + c) * 16 + d)%N in
      if (n <? 256)%N then Some (ascii_of_N n) else None
  | _, _, _, _ => None
  end.

(** The characters of a string literal after its opening quote, up to the
    closing quote; the rest of the text follows. *)
Fixpoint parse_string_body (s : string) : option (string * string) :=
  match s with
  | "" => None
  | String c s1 =>
      if Ascii.eqb c dquote then Some ("", s1)
      else if Ascii.eqb c backslash then
        match s1 with
        | "" => None
        | String e s2 =>
            if Ascii.eqb e "u"%char then
              match s2 with
              | String h1 (String h2 (String h3 (String h4 s3))) =>
                  match code_unit h1 h2 h3 h4, parse_string_body s3 with
                  | Some c', Some (t, r) => Some (String c' t, r)
                  | _, _ => None
                  end
              | _ => None
              end
            else
              match unescape e, parse_string_body s2 with
              | Some c', Some (t, r) => Some (String c' t, r)
              | _, _ => None
              end
        end
      else if (N_of_ascii c <? 32)%N then None
      else
        match parse_string_body s1 with
        | Some (t, r) => Some (String c t, r)
        | None => None
        end
  end.

(** The longest run of decimal digits at the head of [s], and the rest. *)
Fixpoint digit_run (s : string) : string * string :=
  match s with
  | String c s' =>
      if is_digit c then let (d, r) := digit_run s' in (String c d, r)
      else ("", s)
  | "" => ("", "")
  end.

(** The natural number a run of digits denotes. *)
Definition decimal_value (digits : string) : Z :=
  match NilEmpty.uint_of_string digits with
  | Some d => Z.of_uint d
  | None => 0
  end.

(** The number [0.digits] times ten to the [point], for any run of
    digits. *)
Definition number_of_decimal (negative : bool) (digits : string) (point : Z)
  : number :=
  let s1 := strip_leading_zeros digits in
  let s2 := strip_trailing_zeros s1 in
  if String.eqb s2 "" then Zero
  else
    Finite negative s2
      (point - Z.of_nat (String.length digits - String.length s1)).

(** The fraction of a number: a point and at least one digit, or nothing. *)
Definition parse_fraction (s : string) : option (string * string) :=
  match s with
  | String c s' =>
      if Ascii.eqb c "."%char then
        let (d, r) := digit_run s' in
        if String.eqb d "" then None else Some (d, r)
      else Some ("", s)
  | "" => Some ("", "")
  end.

(** The exponent of a number: [e] or [E], an optional sign and at least one
    digit, or nothing. *)
Definition parse_exponent (s : string) : option (Z * string) :=
  match s with
  | String c s' =>
      if Ascii.eqb c "e"%char || Ascii.eqb c "E"%char then
        let (negative, s1) :=
          match s' with
          | String c' s'' =>
              if Ascii.eqb c' "-"%char then (true, s'')
              else if Ascii.eqb c' "+"%char then (false, s'')
              else (false, s')
          | "" => (false, s')
          end in
        let (d, r) := digit_run s1 in
        if String.eqb d "" then None
        else Some (if negative then (- decimal_value d)%Z else decimal_value d, r)
      else Some (0%Z, s)
  | "" => Some (0%Z, "")
  end.

(** The digits of a number after its sign: [0] or digits without a leading
    zero, then an optional fraction and an optional exponent. *)
Definition parse_magnitude (negative : bool) (s : string)
  : option (number * string) :=
  let (int_part, r1) := digit_run s in
  let well_formed :=
    match int_part with
    | "" => false
    | String c "" => true
    | String c _ => negb (Ascii.eqb c "0"%char)
    end in
  if well_formed then
    match parse_fraction r1 with
    | Some (fraction, r2) =>
        match parse_exponent r2 with
        | Some (e, r3) =>
            Some (number_of_decimal negative (int_part ++ fraction)
                    (Z.of_nat (String.length int_part) + e), r3)
        | None => None
        end
    | None => None
    end
  else None.

(** A number: an optional minus sign, then its digits. *)
Definition parse_number (s : string) : option (number * string) :=
  match s with
  | String c s' =>
      if Ascii.eqb c "-"%char then parse_magnitude true s'
      else parse_magnitude false s
  | "" => None
  end.

(** [s] after the characters of [word], when it starts with them. *)
Fixpoint expect (word s : string) : option string :=
  match word with
  | "" => Some s
  | String w word' =>
      match s with
      | String c s' => if Ascii.eqb c w then expect word' s' else None
      | "" => None
      end
  end.

Fixpoint parse_value (fuel : nat) (s : string) {struct fuel}
  : option (value * string) :=
  match fuel with
  | O => None
  | S fuel' =>
      match skip_ws s with
      | "" => None
      | String c r =>
          if Ascii.eqb c "n"%char then
            match expect "ull" r with
            | Some r' => Some (Prim Null, r')
            | None => None
            end
          else if Ascii.eqb c "t"%char then
            match expect "rue" r with
            | Some r' => Some (Prim (Bool true), r')
            | None => None
            end
          else if Ascii.eqb c "f"%char then
            match expect "alse" r with
            | Some r' => Some (Prim (Bool false), r')
            | None => None
            end
          else if Ascii.eqb c dquote then
            match parse_string_body r with
            | Some (t, r') => Some (Prim (Str t), r')
            | None => None
            end
          else if Ascii.eqb c "["%char then
            match skip_ws r with
            | String c' r' =>
                if Ascii.eqb c' "]"%char then Some (Arr [], r')
                else
                  match parse_elements fuel' r with
                  | Some (l, r'') => Some (Arr l, r'')
                  | None => None
                  end
            | "" => None
            end
          else if Ascii.eqb c "{"%char then
            match skip_ws r with
            | String c' r' =>
                if Ascii.eqb c' "}"%char then Some (Obj [], r')
                else
                  match parse_members fuel' r with
                  | Some (l, r'') => Some (Obj l, r'')
                  | None => None
                  end
            | "" => None
            end
          else
            match parse_number (String c r) with
            | Some (n, r') => Some (Prim (Num n), r')
            | None => None
            end
      end
  end

with parse_elements (fuel : nat) (s : string) {struct fuel}
  : option (list value * string) :=
  match fuel with
  | O => None
  | S fuel' =>
      match parse_value fuel' s with
      | Some (v, r) =>
          match skip_ws r with
          | String c r' =>
              if Ascii.eqb c ","%char then
                match parse_elements fuel' r' with
                | Some (l, r'') => Some (v :: l, r'')
                | None => None
                end
              else if Ascii.eqb c "]"%char then Some ([v], r')
              else None
          | "" => None
          end
      | None => None
      end
  end

with parse_members (fuel : nat) (s : string) {struct fuel}
  : option (list (string * value) * string) :=
  match fuel with
  | O => None
  | S fuel' =>
      match skip_ws s with
      | String q r =>
          if Ascii.eqb q dquote then
            match parse_string_body r with
            | Some (k, r1) =>
                match skip_ws r1 with
                | String colon r2 =>
                    if Ascii.eqb colon ":"%char then
                      match parse_value fuel' r2 with
                      | Some (v, r3) =>
                          match skip_ws r3 with
                          | String c r4 =>
                              if Ascii.eqb c ","%char then
                                match parse_members fuel' r4 with
                                | Some (l, r5) => Some ((k, v) :: l, r5)
                                | None => None
                                end
                              else if Ascii.eqb c "}"%char then Some ([(k, v)], r4)
                              else None
                          | "" => None
                          end
                      | None => None
                      end
                    else None
                | "" => None
                end
            | None => None
            end
          else None
      | "" => None
      end
  end.

(** A whole text: one value, then nothing but white space. *)
Definition JSON_parse (text : string) : option value :=
  match parse_value (String.length text) text with
  | Some (v, r) =>
      match skip_ws r with
      | "" => Some v
      | _ => None
      end
  | None => None
  end.

(** The fuel the decoder needs for the text of [v]. *)
Fixpoint weight (v : value) : nat :=
  match v with
  | Arr elems => S (fold_right (fun x n => S (weight x + n)) O elems)
  | Obj props => S (fold_right (fun kx n => S (weight (snd kx) + n)) O props)
  | _ => 1
  end.

(** What may follow a value inside a text: the end, or one of [,] [\]] [}]. *)
Definition delimited (s : string) : bool :=
  match s with
  | "" => true
  | String c _ =>
      Ascii.eqb c ","%char || Ascii.eqb c "]"%char || Ascii.eqb c "}"%char
  end.

(** The first character of a value: not white space, not a closing
    bracket. *)
Definition starts_value (s : string) : bool :=
  match s with
  | "" => false
  | String c _ =>
      negb (is_ws c) && negb (Ascii.eqb c "]"%char) && negb (Ascii.eqb c "}"%char)
  end.

(** The first character of a number. *)
Definition starts_number (c : ascii) : bool :=
  let n := N_of_ascii c in
  ((n =? 45) || ((48 <=? n) && (n <=? 57)))%N.

(** [v] has a text, and the decoder reads [v] back from it, whatever
    follows. *)
(** [v] has a text, and the decoder reads [v] back from it, whatever
    follows. *)
Definition decodes (v : value) : Prop :=
  exists text,
    serialize v = Ok (Some text) /\
    starts_value text = true /\
    weight v <= String.length text /\
    forall fuel rest,
      weight v <= fuel -> delimited rest = true ->
      parse_value fuel (text ++ rest) = Some (v, rest).

(** The message of line 11, when its operands can be converted. *)
Definition executing_message (api : Host) (b : body) : result string :=
  match text_of api (objtype b) with
  | Throw e => Throw e
  | Ok kind =>
      match text_of api (objid b) with
      | Throw e => Throw e
      | Ok id =>
          match text_of api (methodName b) with
          | Throw e => Throw e
          | Ok name =>
              match JSON_stringify (args b) None with
              | Throw e => Throw e
              | Ok text =>
                  Ok (concat_result
                        ("Executing " ++ kind ++ "(" ++ id ++ ")." ++ name ++ "(")
                        text ++ ")")
              end
          end
      end
  end.

(** What the host function of the request wrote to the log, if one ran. *)
Definition host_log (api : Host) (b : body) : list logged :=
  log_of (trace (invocation api b)).

(** ** Sample hosts and requests *)

(** A cyclic object: the request object of the host, whose [res] refers
    back to it. *)
Definition cyclic_req : value := Obj [("res", Obj [("req", Circular)])].

(** Plain data with an integer, a fraction (1.5) and a number that is
    written in exponent form (1e21). *)
Definition parentless : value :=
  Obj [("title", Prim (Str "A"));
       ("rows", Arr [Arr [Prim (Num (integer 1));
                          Prim (Num (Finite false "15" 1));
                          Prim (Num (Finite false "1" 22))]])].

(** An object one of whose properties is [undefined]. *)
Definition draft : value :=
  Obj [("title", Prim (Str "A")); ("draft", Prim Undefined)].

(** A result with what JSON cannot carry: NaN, [undefined], functions, and
    a cycle under [children]; 0.25 is the one number in it. *)
Definition odd : value :=
  Obj [("n", Prim (Num NaN));
       ("list", Arr [Prim Undefined; Fun 3; Prim (Num (Finite false "25" 0))]);
       ("f", Fun 3);
       ("children", Obj [("self", Circular)])].

(** A host with one note, [N1], and the SQL facade.  The note has a string
    [title] and six function members: [getTitle] (function 7) answers with
    an object that carries children and parents, [getParentless] (9) with
    plain data, [getNothing] (10) with [null], [getDraft] (12) with an
    object one of whose properties is [undefined], [getOdd] (14) with
    [odd], and [fail] (8) throws.
    The facade's [getRows] is function 11.  The root object has the [log]
    function (13), which writes its first argument to the log, and [req], an
    object that refers to itself.  The token label is [secret]. *)
Definition sample_host : Host := {|
  currentNote_getLabel := fun name =>
    if String.eqb name "pythonClientToken" then Some (Str "secret") else None;
  getNote := fun id =>
    if strict_eq id (Str "N1") then HObject (HostObject 1) else HNull;
  getBranch := fun _ => HNull;
  getAttribute := fun _ => HNull;
  sql := HObject (HostObject 2);
  Get := fun o key =>
    match o with
    | HostObject 1 =>
        if String.eqb key "getTitle" then Ok (Fun 7)
        else if String.eqb key "fail" then Ok (Fun 8)
        else if String.eqb key "getParentless" then Ok (Fun 9)
        else if String.eqb key "getNothing" then Ok (Fun 10)
        else if String.eqb key "getDraft" then Ok (Fun 12)
        else if String.eqb key "getOdd" then Ok (Fun 14)
        else if String.eqb key "title" then Ok (Prim (Str "Groceries"))
        else Ok (Prim Undefined)
    | HostObject 2 =>
        if String.eqb key "getRows" then Ok (Fun 11) else Ok (Prim Undefined)
    | Api =>
        if String.eqb key "log" then Ok (Fun 13)
        else if String.eqb key "req" then Ok cyclic_req
        else Ok (Prim Undefined)
    | _ => Ok (Prim Undefined)
    end;
  Call := fun f _ l =>
    match f with
    | 11 => ([], Ok (Arr [Arr [Prim (Num (integer 1))]]))
    | 7 => ([], Ok (Obj [("title", Prim (Str "A"));
                         ("children", Arr [Prim (Str "N2")]);
                         ("parents", Arr [Prim (Str "root")])]))
    | 9 => ([], Ok parentless)
    | 10 => ([], Ok (Prim Null))
    | 12 => ([], Ok draft)
    | 14 => ([], Ok odd)
    | 13 =>
        match l with
        | Prim p :: _ => ([LogText (to_string p)], Ok (Prim Undefined))
        | _ => ([LogText "undefined"], Ok (Prim Undefined))
        end
    | _ => ([], Throw (ErrorObject "TypeError" "x is not a function"))
    end;
  array_like := fun _ => Ok [];
  to_primitive := fun _ _ => Throw not_primitive
|}.


(** A host whose token label carries no value. *)
Definition unset_host : Host := {|
  currentNote_getLabel := fun _ => Some Undefined;
  getNote := fun _ => HNull;
  getBranch := fun _ => HNull;
  getAttribute := fun _ => HNull;
  sql := HNull;
  Get := fun _ _ => Ok (Prim Undefined);
  Call := fun _ _ _ => ([], Ok (Prim Undefined));
  array_like := fun _ => Ok [];
  to_primitive := fun _ _ => Throw not_primitive
|}.

Definition request (token kind id method arguments : value) : body := {|
  pythonClientToken := token;
  objtype := kind;
  objid := id;
  methodName := method;
  args := arguments
|}.

Definition call_getTitle : body :=
  request (Str "secret") (Str "note") (Str "N1") (Str "getTitle") (Arr []).

Definition call_getParentless : body :=
  request (Str "secret") (Str "note") (Str "N1") (Str "getParentless") (Arr []).

Definition call_getNothing : body :=
  request (Str "secret") (Str "note") (Str "N1") (Str "getNothing") (Arr []).



Definition call_fail : body :=
  request (Str "secret") (Str "note") (Str "N1") (Str "fail")
          (Arr [Prim (Num (integer 1))]).

Definition read_title : body :=
  request (Str "secret") (Str "note") (Str "N1") (Str "title") (Arr []).

Definition call_missing : body :=
  request (Str "secret") (Str "note") (Str "N1") (Str "missingMethod") (Arr []).

Definition call_unknown_note : body :=
  request (Str "secret") (Str "note") (Str "nope") (Str "getTitle") (Arr []).

Definition wrong_token : body :=
  request (Str "guess") (Str "note") (Str "N1") (Str "getTitle") (Arr []).

Definition sql_getRows : body :=
  request (Str "secret") (Str "sql") Undefined (Str "getRows")
          (Arr [Prim (Str "SELECT 1")]).

Definition no_token : body :=
  request Undefined Undefined Undefined (Str "getAppInfo") (Arr []).

(** [objtype] is the array [["note"]]. *)
Definition note_in_array : body :=
  request (Str "secret") (Arr [Prim (Str "note")]) (Str "N1") (Str "getTitle")
          (Arr []).

(** [objid] is the object [{"toString": 1}]. *)
Definition id_without_text : body :=
  request (Str "secret") (Str "note") (Obj [("toString", Prim (Num (integer 1)))])
          (Str "getTitle") (Arr []).

(** The root object's own [log], called with ['x']. *)
Definition call_log : body :=
  request (Str "secret") Undefined Undefined (Str "log") (Arr [Prim (Str "x")]).

(** The root object's [req] member. *)
Definition read_req : body :=
  request (Str "secret") Undefined Undefined (Str "req") (Arr []).

(** ** Counting events, and what [JSON.stringify] keeps of a value *)

Definition is_send (ev : event) : bool :=
  match ev with
  | EvSend _ => true
  | _ => false
  end.

(** A host lookup of lines 14-23. *)
Definition is_resolution (ev : event) : bool :=
  match ev with
  | EvGetNote _ | EvGetBranch _ | EvGetAttribute _ | EvSql => true
  | _ => false
  end.

Definition is_read (ev : event) : bool :=
  match ev with
  | EvGet _ _ => true
  | _ => false
  end.

Definition count (p : event -> bool) (t : list event) : nat :=
  List.length (filter p t).

(** The event is about the request's own target: a lookup is given the
    [objid] of the request, a member read has the key of the request and is
    made on the object the request resolves to, and so is a call. *)
Definition on_target (api : Host) (b : body) (ev : event) : Prop :=
  match ev with
  | EvGetNote id | EvGetBranch id | EvGetAttribute id => id = objid b
  | EvGet o key =>
      ToPropertyKey api (methodName b) = Ok key /\
      outcome (resolve api (objtype b) (objid b)) = Ok (HObject o)
  | EvCall _ this _ => outcome (resolve api (objtype b) (objid b)) = Ok this
  | _ => True
  end.

(** [JSON.stringify] has no text for [undefined] and for functions. *)
Definition has_text (v : value) : bool :=
  match v with
  | Prim Undefined | Fun _ => false
  | _ => true
  end.

(** [JSON.stringify] does not throw on [v]: no BigInt and no reference to
    an enclosing object anywhere in it. *)
Fixpoint serializable (v : value) : bool :=
  match v with
  | Prim (BigInt _) | Circular => false
  | Arr elems => forallb serializable elems
  | Obj props => forallb (fun kx => serializable (snd kx)) props
  | _ => true
  end.

(** The digits of every finite number in [v] are well formed. *)
Fixpoint well_formed (v : value) : bool :=
  match v with
  | Prim (Num x) => well_formed_number x
  | Arr elems => forallb well_formed elems
  | Obj props => forallb (fun kx => well_formed (snd kx)) props
  | _ => true
  end.

(** What a JSON text can carry of [v]: a number that is not finite becomes
    [null]; inside an array [undefined] and functions become [null], inside
    an object their properties are left out. *)
Fixpoint as_json (v : value) : value :=
  match v with
  | Prim (Num x) => if is_finite x then v else Prim Null
  | Arr elems =>
      Arr (map (fun x => if has_text x then as_json x else Prim Null) elems)
  | Obj props =>
      Obj (flat_map (fun '(k, x) =>
             if has_text x then [(k, as_json x)] else []) props)
  | _ => v
  end.


(** A host on whose current note the token label was never set. *)
Definition no_label_host : Host := {|
  currentNote_getLabel := fun _ => None;
  getNote := getNote sample_host;
  getBranch := getBranch sample_host;
  getAttribute := getAttribute sample_host;
  sql := sql sample_host;
  Get := Get sample_host;
  Call := Call sample_host;
  array_like := array_like sample_host;
  to_primitive := to_primitive sample_host
|}.

Definition call_without_args : body :=
  request (Str "secret") (Str "note") (Str "N1") (Str "getTitle") Undefined.


Definition starts_digit (s : string) : bool :=
  match s with
  | String c _ => is_digit c
  | "" => false
  end.

(** The text of a finite number without its sign. *)
Definition magnitude_to_string (digits : string) (point : Z) : string :=
  number_to_string (Finite false digits point).


(** An event of the invocation: a lookup, a read, the call, or an entry the
    called function wrote to the log. *)
Definition is_invocation (ev : event) : bool := is_dispatch ev || is_log ev.

(** [v === p] as a proposition: the same primitive, which is not NaN. *)
Definition strictly_equal (v : value) (p : prim) : Prop :=
  v = Prim p /\ p <> Num NaN.

(** The text of an element of an array. *)
Definition element_text (x : value) : string :=
  match serialize x with
  | Ok t => or_null t
  | Throw _ => "null"
  end.

Definition member_text (kx : string * value) : string :=
  QuoteJSONString (fst kx) ++ ":" ++ element_text (snd kx).



(** * Properties *)

(** ** Primitives *)

Lemma number_eqb_eq (x y : number) : number_eqb x y = true -> x = y.
Proof.
  destruct x, y; simpl; intro H; try discriminate; try reflexivity.
  - apply Bool.eqb_prop in H. now subst.
  - apply andb_prop in H as [H H3]. apply andb_prop in H as [H1 H2].
    apply Bool.eqb_prop in H1. apply String.eqb_eq in H2. apply Z.eqb_eq in H3.
    now subst.
Qed.

Lemma number_eqb_refl (x : number) : x <> NaN -> number_eqb x x = true.
Proof.
  destruct x; simpl; intro H.
  - now contradiction H.
  - apply Bool.eqb_reflx.
  - reflexivity.
  - now rewrite Bool.eqb_reflx, String.eqb_refl, Z.eqb_refl.
Qed.

Lemma prim_eqb_eq (a b : prim) : prim_eqb a b = true -> a = b.
Proof.
  destruct a, b; simpl; intro H; try discriminate; try reflexivity.
  - apply Bool.eqb_prop in H. now subst.
  - apply number_eqb_eq in H. now subst.
  - apply Z.eqb_eq in H. now subst.
  - apply String.eqb_eq in H. now subst.
Qed.

Lemma prim_eqb_refl (a : prim) : a <> Num NaN -> prim_eqb a a = true.
Proof.
  destruct a; simpl; intro H; try reflexivity.
  - apply Bool.eqb_reflx.
  - apply number_eqb_refl. congruence.
  - apply Z.eqb_refl.
  - apply String.eqb_refl.
Qed.

Lemma strict_eq_true (v : value) (p : prim) :
  strict_eq v p = true <-> strictly_equal v p.
Proof.
  unfold strictly_equal. split.
  - destruct v as [q| | | |]; simpl; try discriminate. intro H.
    pose proof (prim_eqb_eq q p H) as ->. split; [reflexivity|].
    intros ->. discriminate.
  - intros [-> H]. now apply prim_eqb_refl.
Qed.

Lemma strict_eq_false (v : value) (p : prim) :
  strict_eq v p = false <-> ~ strictly_equal v p.
Proof.
  rewrite <- strict_eq_true. destruct (strict_eq v p); split; congruence.
Qed.

Lemma strict_eq_differ (v : value) (p : prim) :
  v <> Prim p -> strict_eq v p = false.
Proof. intro H. apply strict_eq_false. intros [E _]. contradiction. Qed.

Lemma strict_eq_same (p : prim) : p <> Num NaN -> strict_eq (Prim p) p = true.
Proof. intro H. apply strict_eq_true. now split. Qed.

Lemma text_of_prim (api : Host) (p : prim) :
  text_of api (Prim p) = Ok (to_string p).
Proof. reflexivity. Qed.

Lemma ToPropertyKey_prim (api : Host) (p : prim) :
  ToPropertyKey api (Prim p) = Ok (to_string p).
Proof. reflexivity. Qed.

(** [lit == v] is decided by the primitive of [v]. *)
Lemma loose_eq_tag_primitive (api : Host) (lit : string) (v : value) (p : prim) :
  ToPrimitive api HintDefault v = Ok p ->
  loose_eq_tag api lit v = Ok (prim_eqb p (Str lit)).
Proof.
  unfold loose_eq_tag. intros ->. destruct p; try reflexivity.
  simpl. now rewrite String.eqb_sym.
Qed.

Lemma loose_eq_tag_same (api : Host) (lit : string) (v : value) :
  ToPrimitive api HintDefault v = Ok (Str lit) ->
  loose_eq_tag api lit v = Ok true.
Proof.
  intro H. rewrite (loose_eq_tag_primitive api lit v _ H). simpl.
  now rewrite String.eqb_refl.
Qed.

Lemma loose_eq_tag_other (api : Host) (lit : string) (v : value) (p : prim) :
  ToPrimitive api HintDefault v = Ok p -> p <> Str lit ->
  loose_eq_tag api lit v = Ok false.
Proof.
  intros H Hne. rewrite (loose_eq_tag_primitive api lit v _ H). f_equal.
  destruct (prim_eqb p (Str lit)) eqn:E; [|reflexivity].
  apply prim_eqb_eq in E. contradiction.
Qed.

Lemma loose_eq_tag_throws (api : Host) (lit : string) (v : value) (e : exn) :
  ToPrimitive api HintDefault v = Throw e ->
  loose_eq_tag api lit v = Throw e.
Proof. unfold loose_eq_tag. now intros ->. Qed.

(** ** Traces *)

Lemma res_calls_skip (t1 t2 : list event) (code : Z) :
  Forall (fun ev => is_res ev = false) t1 ->
  res_calls code (t1 ++ t2)%list = res_calls code t2.
Proof.
  induction 1 as [|ev t1 Hev _ IH]; [reflexivity|].
  destruct ev; try discriminate; simpl; exact IH.
Qed.

Lemma res_calls_none (t : list event) (code : Z) :
  Forall (fun ev => is_res ev = false) t -> res_calls code t = None.
Proof.
  intro H. rewrite <- (List.app_nil_r t). now rewrite res_calls_skip.
Qed.

Lemma log_of_app (t1 t2 : list event) :
  log_of (t1 ++ t2)%list = (log_of t1 ++ log_of t2)%list.
Proof.
  induction t1 as [|ev t1 IH]; [reflexivity|].
  destruct ev; simpl; rewrite IH; reflexivity.
Qed.

Lemma log_of_skip (t : list event) :
  Forall (fun ev => is_log ev = false) t -> log_of t = [].
Proof.
  induction 1 as [|ev t Hev _ IH]; [reflexivity|].
  destruct ev; try discriminate; simpl; exact IH.
Qed.

Lemma log_of_entries (l : list logged) : log_of (map EvLog l) = l.
Proof. induction l as [|x l IH]; [reflexivity|]. simpl. now rewrite IH. Qed.

Lemma dispatch_not_res (t : list event) :
  Forall (fun ev => is_dispatch ev = true) t ->
  Forall (fun ev => is_res ev = false) t.
Proof.
  apply Forall_impl. intros [] H; try discriminate; reflexivity.
Qed.

Lemma dispatch_not_log (t : list event) :
  Forall (fun ev => is_dispatch ev = true) t ->
  Forall (fun ev => is_log ev = false) t.
Proof.
  apply Forall_impl. intros [] H; try discriminate; reflexivity.
Qed.

Lemma dispatch_invocation (t : list event) :
  Forall (fun ev => is_dispatch ev = true) t ->
  Forall (fun ev => is_invocation ev = true) t.
Proof.
  apply Forall_impl. intros ev H. unfold is_invocation. now rewrite H.
Qed.

Lemma entries_invocation (l : list logged) :
  Forall (fun ev => is_invocation ev = true) (map EvLog l).
Proof. induction l; constructor; auto. Qed.

Lemma invocation_not_res (t : list event) :
  Forall (fun ev => is_invocation ev = true) t ->
  Forall (fun ev => is_res ev = false) t.
Proof.
  apply Forall_impl. intros [] H; try discriminate; reflexivity.
Qed.

Lemma invocation_not_stringify (t : list event) :
  Forall (fun ev => is_invocation ev = true) t ->
  Forall (fun ev => is_result_stringify ev = false) t.
Proof.
  apply Forall_impl. intros [] H; try discriminate; reflexivity.
Qed.

Lemma invocation_not_text (t : list event) :
  Forall (fun ev => is_invocation ev = true) t ->
  Forall (fun ev => sends_text ev = false) t.
Proof.
  apply Forall_impl. intros [] H; try discriminate; reflexivity.
Qed.

(** ** The pieces of the script *)

Ltac run :=
  unfold bind, ret, throw, tell, lift, trace, outcome; cbn [fst snd app].

(** The trace and the outcome of a run that is given as a pair. *)
Ltac of_pair :=
  repeat match goal with
         | |- context [@trace ?A (?t, ?r)] => change (@trace A (t, r)) with t
         | |- context [@outcome ?A (?t, ?r)] => change (@outcome A (t, r)) with r
         end.

(** The target object of lines 14-23, by the primitive of [objtype]. *)
Lemma resolve_primitive (api : Host) (kind id : value) (p : prim) :
  ToPrimitive api HintDefault kind = Ok p ->
  resolve api kind id =
    if prim_eqb p (Str "note") then ([EvGetNote id], Ok (getNote api id))
    else if prim_eqb p (Str "branch") then
      ([EvGetBranch id], Ok (getBranch api id))
    else if prim_eqb p (Str "attribute") then
      ([EvGetAttribute id], Ok (getAttribute api id))
    else if prim_eqb p (Str "sql") then ([EvSql], Ok (sql api))
    else ([], Ok (HObject Api)).
Proof.
  intro H. unfold resolve.
  rewrite !(loose_eq_tag_primitive api _ kind p H). run.
  destruct (prim_eqb p (Str "note")); [reflexivity|].
  destruct (prim_eqb p (Str "branch")); [reflexivity|].
  destruct (prim_eqb p (Str "attribute")); [reflexivity|].
  destruct (prim_eqb p (Str "sql")); reflexivity.
Qed.

Lemma resolve_throws (api : Host) (kind id : value) (e : exn) :
  ToPrimitive api HintDefault kind = Throw e ->
  resolve api kind id = ([], Throw e).
Proof.
  intro H. unfold resolve. now rewrite (loose_eq_tag_throws api _ kind e H).
Qed.

Lemma resolve_dispatch (api : Host) (kind id : value) :
  Forall (fun ev => is_dispatch ev = true) (trace (resolve api kind id)).
Proof.
  destruct (ToPrimitive api HintDefault kind) as [p|e] eqn:E.
  - rewrite (resolve_primitive api kind id p E).
    destruct (prim_eqb p (Str "note")); [repeat constructor|].
    destruct (prim_eqb p (Str "branch")); [repeat constructor|].
    destruct (prim_eqb p (Str "attribute")); [repeat constructor|].
    destruct (prim_eqb p (Str "sql")); repeat constructor.
  - rewrite (resolve_throws api kind id e E). constructor.
Qed.

Lemma get_member_dispatch (api : Host) (obj : handle) (name : value) :
  Forall (fun ev => is_dispatch ev = true) (trace (get_member api obj name)).
Proof.
  destruct obj; run; [constructor..|].
  unfold get_member. run.
  destruct (ToPropertyKey api name) as [key|e]; cbn [fst snd app];
    [|constructor].
  destruct (Get api o key); simpl; repeat constructor.
Qed.

Lemma lookup_dispatch (api : Host) (b : body) :
  Forall (fun ev => is_dispatch ev = true) (trace (lookup api b)).
Proof.
  unfold lookup.
  pose proof (resolve_dispatch api (objtype b) (objid b)) as Hr. revert Hr. run.
  destruct (resolve api (objtype b) (objid b)) as [t [obj|e]]; cbn [fst snd];
    intro Hr; [|exact Hr].
  pose proof (get_member_dispatch api obj (methodName b)) as Hg.
  revert Hg. run.
  destruct (get_member api obj (methodName b)) as [t' [v|e]];
    simpl; intro Hg; try rewrite List.app_nil_r; apply Forall_app; auto.
Qed.

Lemma host_call_invocation (api : Host) (f : fn) (this : handle)
    (l : list value) :
  Forall (fun ev => is_invocation ev = true) (trace (host_call api f this l)).
Proof. apply entries_invocation. Qed.

Lemma Reflect_apply_invocation (api : Host) (target : value) (this : handle)
    (a : value) :
  Forall (fun ev => is_invocation ev = true)
         (trace (Reflect_apply api target this a)).
Proof.
  destruct target as [p|l|ps|f|]; try (run; constructor).
  unfold Reflect_apply.
  assert (forall l, Forall (fun ev => is_invocation ev = true)
            (trace (tell (EvCall f this l) ;; host_call api f this l))) as Hc.
  { intro l. pose proof (host_call_invocation api f this l) as H. revert H.
    run. destruct (host_call api f this l) as [t r]. cbn [fst].
    intro H. constructor; [reflexivity|exact H]. }
  unfold CreateListFromArrayLike.
  destruct a as [p|l|ps|g|].
  - run. constructor.
  - specialize (Hc l). revert Hc. run.
    destruct (host_call api f this l) as [t r]. exact (fun H => H).
  - destruct (array_like api (Obj ps)) as [l|e]; [|run; constructor].
    specialize (Hc l). revert Hc. run.
    destruct (host_call api f this l) as [t r]. exact (fun H => H).
  - destruct (array_like api (Fun g)) as [l|e]; [|run; constructor].
    specialize (Hc l). revert Hc. run.
    destruct (host_call api f this l) as [t r]. exact (fun H => H).
  - destruct (array_like api Circular) as [l|e]; [|run; constructor].
    specialize (Hc l). revert Hc. run.
    destruct (host_call api f this l) as [t r]. exact (fun H => H).
Qed.

Lemma invoke_invocation (api : Host) (obj : handle) (name a ret0 : value) :
  Forall (fun ev => is_invocation ev = true)
         (trace (invoke api obj name a ret0)).
Proof.
  unfold invoke.
  pose proof (dispatch_invocation _ (get_member_dispatch api obj name)) as Hg.
  revert Hg. run.
  destruct (get_member api obj name) as [t [m|e]]; cbn [fst snd]; intro Hg;
    [|exact Hg].
  destruct (String.eqb "function" (typeof m)); cbn [fst snd];
    [|rewrite List.app_nil_r; exact Hg].
  pose proof (Reflect_apply_invocation api m obj a) as Hr. revert Hr.
  unfold trace. destruct (Reflect_apply api m obj a) as [t' r]; cbn [fst snd].
  intro Hr. repeat (apply Forall_app; split; auto).
Qed.

Lemma invocation_events (api : Host) (b : body) :
  Forall (fun ev => is_invocation ev = true) (trace (invocation api b)).
Proof.
  unfold invocation.
  pose proof (dispatch_invocation _ (lookup_dispatch api b)) as Hl.
  revert Hl. run.
  destruct (lookup api b) as [t [[obj ret0]|e]]; cbn [fst snd]; intro Hl;
    [|exact Hl].
  pose proof (invoke_invocation api obj (methodName b) (args b) ret0) as Hi.
  revert Hi. unfold trace.
  destruct (invoke api obj (methodName b) (args b) ret0) as [t' r].
  cbn [fst]. intro Hi. apply Forall_app. auto.
Qed.

Lemma report_ok (e : exn) : outcome (report e) = Ok tt.
Proof. reflexivity. Qed.

(** ** Line 11 *)

Lemma announce_message (api : Host) (b : body) (msg : string) :
  executing_message api b = Ok msg ->
  announce api b = ([EvStringify (args b) false; EvLog (LogText msg)], Ok tt).
Proof.
  unfold executing_message, announce, stringify, api_log. run.
  destruct (text_of api (objtype b)) as [kind|e]; [|discriminate].
  destruct (text_of api (objid b)) as [id|e]; [|discriminate].
  destruct (text_of api (methodName b)) as [name|e]; [|discriminate].
  cbn [fst snd app].
  destruct (JSON_stringify (args b) None) as [text|e]; [|discriminate].
  now intros [= <-].
Qed.

(** When line 11 throws, nothing has been logged, looked up or sent. *)
Lemma announce_throws (api : Host) (b : body) (e : exn) :
  executing_message api b = Throw e ->
  outcome (announce api b) = Throw e /\
  (trace (announce api b) = [] \/
   trace (announce api b) = [EvStringify (args b) false]).
Proof.
  unfold executing_message, announce, stringify, api_log. run.
  destruct (text_of api (objtype b)) as [kind|e1]; [|intros [= ->]; auto].
  destruct (text_of api (objid b)) as [id|e1]; [|intros [= ->]; auto].
  destruct (text_of api (methodName b)) as [name|e1]; [|intros [= ->]; auto].
  cbn [fst snd app].
  destruct (JSON_stringify (args b) None) as [text|e1]; [discriminate|].
  intros [= ->]. auto.
Qed.

Lemma announced_message (api : Host) (b : body) :
  announced api b <-> exists msg, executing_message api b = Ok msg.
Proof.
  unfold announced. split.
  - intro H. destruct (executing_message api b) as [msg|e] eqn:E;
      [now exists msg|].
    destruct (announce_throws api b e E) as [H' _]. congruence.
  - intros [msg H]. now rewrite (announce_message api b msg H).
Qed.

Lemma announce_outcome (api : Host) (b : body) :
  outcome (announce api b) =
    match executing_message api b with
    | Ok _ => Ok tt
    | Throw e => Throw e
    end.
Proof.
  destruct (executing_message api b) as [msg|e] eqn:E.
  - now rewrite (announce_message api b msg E).
  - apply (announce_throws api b e E).
Qed.

(** The events of lines 6-11 when line 11 completes. *)
Lemma preamble_message (api : Host) (b : body) (msg : string) :
  executing_message api b = Ok msg ->
  preamble api b =
    [EvGetLabel "pythonClientToken";
     EvStringify (args b) false;
     EvLog (LogText msg)].
Proof. intro H. unfold preamble. now rewrite (announce_message api b msg H). Qed.

Lemma preamble_quiet (api : Host) (b : body) :
  Forall (fun ev => is_res ev = false /\ is_dispatch ev = false)
         (preamble api b).
Proof.
  unfold preamble. constructor; [now split|].
  destruct (executing_message api b) as [msg|e] eqn:E.
  - rewrite (announce_message api b msg E). repeat constructor.
  - destruct (announce_throws api b e E) as [_ [-> | ->]]; repeat constructor.
Qed.

Lemma preamble_not_res (api : Host) (b : body) :
  Forall (fun ev => is_res ev = false) (preamble api b).
Proof.
  generalize (preamble_quiet api b). apply Forall_impl. now intros ev [H _].
Qed.

Lemma preamble_not_dispatch (api : Host) (b : body) :
  Forall (fun ev => is_dispatch ev = false) (preamble api b).
Proof.
  generalize (preamble_quiet api b). apply Forall_impl. now intros ev [_ H].
Qed.

Lemma preamble_not_result (api : Host) (b : body) :
  Forall (fun ev => is_result_stringify ev = false /\ sends_text ev = false)
         (preamble api b).
Proof.
  unfold preamble. constructor; [now split|].
  destruct (executing_message api b) as [msg|e] eqn:E.
  - rewrite (announce_message api b msg E). repeat constructor.
  - destruct (announce_throws api b e E) as [_ [-> | ->]]; repeat constructor.
Qed.

(** A request whose fields are primitives and whose [args] can be
    serialized gets past line 11. *)
Lemma announced_primitive (api : Host) (b : body) (kind id name : prim)
    (text : option string) :
  objtype b = Prim kind -> objid b = Prim id -> methodName b = Prim name ->
  JSON_stringify (args b) None = Ok text ->
  executing_message api b =
    Ok (concat_result
          ("Executing " ++ to_string kind ++ "(" ++ to_string id ++ ")."
             ++ to_string name ++ "(") text ++ ")").
Proof.
  intros H1 H2 H3 H4. unfold executing_message.
  now rewrite H1, H2, H3, H4.
Qed.

(** ** Lines 45-51 *)

(** What lines 45-51 do: line 45 throws when [JSON.stringify] does; else the
    message is logged and the response sent. *)
Lemma respond_run (v : value) :
  respond v =
    match JSON_stringify v (Some replacer) with
    | Throw e => ([EvStringify v true], Throw e)
    | Ok text =>
        (if is_null v then
           [EvStringify v true;
            EvLog (LogText (concat_result "Return value " text));
            EvSend (Num (integer 400))]
         else
           [EvStringify v true;
            EvLog (LogText (concat_result "Return value " text));
            EvStatus 201;
            EvStringify v true;
            EvSend (payload text)],
         Ok tt)
    end.
Proof.
  unfold respond, stringify, api_log, res_status, res_send. run.
  destruct (JSON_stringify v (Some replacer)) as [text|e]; [|reflexivity].
  cbn [fst snd app]. destruct (is_null v); reflexivity.
Qed.

Lemma respond_outcome (v : value) :
  outcome (respond v) =
    match JSON_stringify v (Some replacer) with
    | Throw e => Throw e
    | Ok _ => Ok tt
    end.
Proof.
  rewrite respond_run. now destruct (JSON_stringify v (Some replacer)).
Qed.

Lemma response_of_respond (v : value) :
  response_of (trace (respond v)) =
    match JSON_stringify v (Some replacer) with
    | Throw _ => None
    | Ok text =>
        if is_null v then Some {| statusCode := 400; body_text := None |}
        else Some {| statusCode := 201; body_text := text |}
    end.
Proof.
  rewrite respond_run.
  destruct (JSON_stringify v (Some replacer)) as [text|e]; [|reflexivity].
  destruct (is_null v); [reflexivity|].
  unfold response_of, trace. cbn [fst res_calls]. now destruct text.
Qed.

Lemma log_of_respond (v : value) :
  log_of (trace (respond v)) =
    match JSON_stringify v (Some replacer) with
    | Throw _ => []
    | Ok text => [LogText (concat_result "Return value " text)]
    end.
Proof.
  rewrite respond_run.
  destruct (JSON_stringify v (Some replacer)) as [text|e]; [|reflexivity].
  now destruct (is_null v).
Qed.

Lemma respond_not_dispatch (v : value) :
  Forall (fun ev => is_dispatch ev = false) (trace (respond v)).
Proof.
  rewrite respond_run.
  destruct (JSON_stringify v (Some replacer)) as [text|e];
    [destruct (is_null v)|]; repeat constructor.
Qed.

(** ** The runs of the script *)

(** Without the label, line 6 throws. *)
Lemma handler_no_label (api : Host) (b : body) :
  currentNote_getLabel api "pythonClientToken" = None ->
  handler api b =
    ([EvGetLabel "pythonClientToken"],
     Throw (TypeError "Cannot read properties of null (reading 'value')")).
Proof. intro H. unfold handler, getLabel_value. now rewrite H. Qed.

(** A request whose token differs from the label value is answered 401 at
    once. *)
Lemma handler_rejected (api : Host) (b : body) (expected : prim) :
  currentNote_getLabel api "pythonClientToken" = Some expected ->
  strict_eq (pythonClientToken b) expected = false ->
  handler api b =
    ([EvGetLabel "pythonClientToken"; EvSend (Num (integer 401))], Ok tt).
Proof.
  intros Hl Hne. unfold handler, getLabel_value. rewrite Hl. run.
  rewrite Hne. reflexivity.
Qed.

(** A request that passes the token check is served. *)
Lemma handler_serves (api : Host) (b : body) :
  authenticated api b ->
  handler api b =
    (EvGetLabel "pythonClientToken" :: trace (serve api b),
     outcome (serve api b)).
Proof.
  intros (expected & Hl & Heq). unfold handler, getLabel_value.
  rewrite Hl. run. rewrite Heq. cbn [negb]. now destruct (serve api b).
Qed.

(** A request that passes the token check and on which line 11 throws: the
    exception ends the script. *)
Lemma handler_unannounced (api : Host) (b : body) (e : exn) :
  authenticated api b ->
  outcome (announce api b) = Throw e ->
  handler api b = (preamble api b, Throw e).
Proof.
  intros (expected & Hl & Heq) He.
  unfold handler, serve, getLabel_value, preamble. rewrite Hl. run. rewrite Heq.
  cbn [negb]. revert He. unfold outcome, trace.
  destruct (announce api b) as [t r]. cbn [fst snd]. now intros ->.
Qed.

(** A request that passes the token check and line 11: the lookup of lines
    14-25 runs outside the [try] statement, the invocation inside. *)
Lemma handler_authenticated (api : Host) (b : body) :
  authenticated api b ->
  announced api b ->
  handler api b =
    match lookup api b with
    | (t, Throw e) => ((preamble api b ++ t)%list, Throw e)
    | (t, Ok (obj, ret0)) =>
        let (t', r) := invoke api obj (methodName b) (args b) ret0 in
        ((preamble api b ++ t ++ t' ++ finish r)%list, outcome (after_try r))
    end.
Proof.
  intros (expected & Hl & Heq) Hn.
  unfold handler, serve, getLabel_value, lookup, try_catch, preamble.
  rewrite Hl. run. rewrite Heq. cbn [negb].
  revert Hn. unfold announced, outcome.
  destruct (announce api b) as [t0 r0]. cbn [fst snd]. intros ->.
  destruct (resolve api (objtype b) (objid b)) as [t1 [obj|e]];
    cbn [fst snd app]; [|reflexivity].
  destruct (get_member api obj (methodName b)) as [t2 [ret0|e]];
    cbn [fst snd app]; [|now rewrite ?List.app_nil_r, <- ?List.app_assoc].
  destruct (invoke api obj (methodName b) (args b) ret0)
    as [t3 [v|e]]; unfold finish, after_try, trace.
  - destruct (respond v) as [t4 r4]. cbn [fst snd].
    now rewrite ?List.app_nil_r, <- ?List.app_assoc.
  - destruct (report e) as [t4 r4]. cbn [fst snd].
    now rewrite ?List.app_nil_r, <- ?List.app_assoc.
Qed.

(** A failure of the lookup of lines 14-25 is not caught: it ends the script
    before any response is sent. *)
Lemma handler_lookup_escapes (api : Host) (b : body) (e : exn) :
  authenticated api b ->
  announced api b ->
  outcome (lookup api b) = Throw e ->
  handler api b = ((preamble api b ++ trace (lookup api b))%list, Throw e) /\
  response_of (trace (handler api b)) = None.
Proof.
  intros Ha Hn He.
  assert (handler api b = ((preamble api b ++ trace (lookup api b))%list, Throw e))
    as Hh.
  { rewrite (handler_authenticated api b Ha Hn). revert He. unfold outcome, trace.
    destruct (lookup api b) as [t [[obj ret0]|e']]; cbn [fst snd];
      [discriminate|]. now intros [= ->]. }
  split; [exact Hh|]. rewrite Hh. of_pair.
  apply res_calls_none, Forall_app. split; [apply preamble_not_res|].
  apply dispatch_not_res, lookup_dispatch.
Qed.

(** The lookup succeeded: the [try] statement is entered, and what follows
    it is decided by the outcome of the invocation. *)
Lemma handler_looked_up (api : Host) (b : body) (found : handle * value) :
  authenticated api b ->
  announced api b ->
  outcome (lookup api b) = Ok found ->
  handler api b =
    ((preamble api b ++ trace (invocation api b)
        ++ finish (outcome (invocation api b)))%list,
     outcome (after_try (outcome (invocation api b)))).
Proof.
  intros Ha Hn Hf. rewrite (handler_authenticated api b Ha Hn).
  unfold invocation. revert Hf. run.
  destruct (lookup api b) as [t [[obj ret0]|e]]; cbn [fst snd];
    [|discriminate]. intros _.
  destruct (invoke api obj (methodName b) (args b) ret0) as [t' r].
  cbn [fst snd]. now rewrite <- !List.app_assoc.
Qed.

Lemma invocation_looked_up (api : Host) (b : body) (v : value) :
  outcome (invocation api b) = Ok v ->
  exists found, outcome (lookup api b) = Ok found.
Proof.
  unfold invocation. run.
  destruct (lookup api b) as [t [found|e]]; cbn [fst snd]; [|discriminate].
  intros _. now exists found.
Qed.

(** An authenticated request whose invocation completes with [v]: the
    script goes on to lines 45-51 with [v]. *)
Lemma handler_result (api : Host) (b : body) (v : value) :
  authenticated api b ->
  announced api b ->
  outcome (invocation api b) = Ok v ->
  handler api b =
    ((preamble api b ++ trace (invocation api b) ++ trace (respond v))%list,
     outcome (respond v)).
Proof.
  intros Ha Hn Hv. destruct (invocation_looked_up api b v Hv) as [found Hf].
  rewrite (handler_looked_up api b found Ha Hn Hf), Hv. reflexivity.
Qed.

(** The response and the log of an authenticated request whose invocation
    completes with [v]. *)
Lemma handler_result_response (api : Host) (b : body) (msg : string) (v : value) :
  authenticated api b ->
  executing_message api b = Ok msg ->
  outcome (invocation api b) = Ok v ->
  response_of (trace (handler api b)) = response_of (trace (respond v)) /\
  log_of (trace (handler api b)) =
    (LogText msg :: host_log api b ++ log_of (trace (respond v)))%list.
Proof.
  intros Ha Hm Hv.
  assert (announced api b) as Hn by (apply announced_message; now exists msg).
  rewrite (handler_result api b v Ha Hn Hv). of_pair.
  split.
  - unfold response_of. rewrite List.app_assoc. apply res_calls_skip.
    apply Forall_app. split; [apply preamble_not_res|].
    apply invocation_not_res, invocation_events.
  - rewrite (preamble_message api b msg Hm). cbn [app log_of].
    now rewrite log_of_app.
Qed.

(** ** Strings *)

Lemma append_assoc (a b c : string) : (a ++ b) ++ c = a ++ (b ++ c).
Proof. induction a as [|x a IH]; simpl; [reflexivity|now rewrite IH]. Qed.

Lemma append_nil_r (a : string) : a ++ "" = a.
Proof. induction a as [|x a IH]; simpl; [reflexivity|now rewrite IH]. Qed.

Lemma length_append (a b : string) :
  String.length (a ++ b) = String.length a + String.length b.
Proof. induction a as [|x a IH]; simpl; [reflexivity|now rewrite IH]. Qed.

(** ** JSON.stringify with a replacer that drops keys *)

Lemma index_key_digit (drop : string -> bool) :
  (forall c s, (N_of_ascii c <? 58)%N = true -> drop (String c s) = false) ->
  forall i, drop (index_key i) = false.
Proof.
  intros Hdrop i. unfold index_key, NilZero.string_of_uint.
  destruct (Nat.to_uint i); cbn [NilEmpty.string_of_uint]; apply Hdrop; reflexivity.
Qed.

Lemma filtered_digit (c : ascii) (s : string) :
  (N_of_ascii c <? 58)%N = true -> filtered (String c s) = false.
Proof.
  intro Hc. unfold filtered. cbn [String.eqb].
  assert (Ascii.eqb c "c" = false) as ->
    by (apply Ascii.eqb_neq; intros ->; discriminate).
  assert (Ascii.eqb c "p" = false) as ->
    by (apply Ascii.eqb_neq; intros ->; discriminate).
  reflexivity.
Qed.

Lemma filtered_index_key (i : nat) : filtered (index_key i) = false.
Proof. apply index_key_digit, filtered_digit. Qed.

Section Dropping.

Variable drop : string -> bool.
Hypothesis drop_index : forall i, drop (index_key i) = false.

Let rep : replacer_fn := fun key v => if drop key then Prim Undefined else v.

Lemma SerializeJSONProperty_drop (fuel : nat) :
  forall key v, height v < fuel ->
  SerializeJSONProperty rep fuel key v =
    if drop key then Ok None else serialize (omit_keys drop v).
Proof.
  induction fuel as [|fuel IH]; intros key v Hh; [lia|].
  cbn [SerializeJSONProperty]. unfold rep at 1.
  destruct (drop key); [reflexivity|].
  destruct v as [p|elems|props|f|].
  - destruct p as [| |[|]| | |]; reflexivity.
  - cbn [height] in Hh. apply PeanoNat.lt_S_n in Hh.
    cbn [omit_keys serialize].
    assert (forall i,
      SerializeJSONArray (SerializeJSONProperty rep fuel) i elems =
      SerializeJSONArray (fun _ x => serialize x) i
        (map (omit_keys drop) elems)) as ->; [|reflexivity].
    induction elems as [|x l IHl]; intro i; [reflexivity|].
    cbn [fold_right] in Hh. cbn [SerializeJSONArray map].
    rewrite IH, drop_index, IHl by lia. reflexivity.
  - cbn [height] in Hh. apply PeanoNat.lt_S_n in Hh.
    cbn [omit_keys serialize].
    assert (SerializeJSONObject (SerializeJSONProperty rep fuel) props =
      SerializeJSONObject (fun _ x => serialize x)
        (flat_map (fun '(k, x) =>
           if drop k then [] else [(k, omit_keys drop x)]) props)) as ->;
      [|reflexivity].
    induction props as [|[k x] l IHl]; [reflexivity|].
    cbn [fold_right snd] in Hh. cbn [SerializeJSONObject flat_map].
    rewrite IH, IHl by lia.
    destruct (drop k); cbn [app SerializeJSONObject]; [|reflexivity].
    match goal with |- match ?r with _ => _ end = _ => now destruct r end.
  - reflexivity.
  - reflexivity.
Qed.

End Dropping.



(** With the script's replacer, the fuel is enough and the text is the one
    of the value without the filtered properties. *)
Lemma SerializeJSONProperty_replacer (fuel : nat) (key : string) (v : value) :
  height v < fuel ->
  SerializeJSONProperty replacer fuel key v =
    if filtered key then Ok None else serialize (omit_filtered v).
Proof. apply (SerializeJSONProperty_drop filtered filtered_index_key). Qed.

Lemma JSON_stringify_replacer (v : value) :
  JSON_stringify v (Some replacer) = serialize (omit_filtered v).
Proof.
  unfold JSON_stringify. now rewrite SerializeJSONProperty_replacer by lia.
Qed.

(** ** The value without the filtered properties *)


Lemma omit_filtered_id (v : value) :
  no_filtered_key v = true -> omit_filtered v = v.
Proof.
  unfold omit_filtered.
  induction v as [p|elems IH|props IH|f|] using value_ind;
    cbn [omit_keys no_filtered_key]; try reflexivity; intro Hv; f_equal.
  - induction IH as [|x l Hx _ IHl]; [reflexivity|].
    cbn [map forallb] in *. apply andb_prop in Hv as [H1 H2].
    now rewrite Hx, IHl.
  - induction IH as [|[k x] l Hx _ IHl]; [reflexivity|].
    cbn [flat_map snd forallb] in *.
    apply andb_prop in Hv as [H1 H2]. apply andb_prop in H1 as [H0 H1].
    apply negb_true_iff in H0. rewrite H0. cbn [app].
    now rewrite Hx, IHl.
Qed.






(** ** The decoder reads back what [serialize] writes *)

Lemma parse_string_body_char (c : ascii) (t : string) :
  parse_string_body (escape_char c ++ t) =
    match parse_string_body t with
    | Some (s, r) => Some (String c s, r)
    | None => None
    end.
Proof.
  destruct c as [[|] [|] [|] [|] [|] [|] [|] [|]]; reflexivity.
Qed.

Lemma parse_string_body_quote (s rest : string) :
  parse_string_body (quote_body s ++ String dquote rest) = Some (s, rest).
Proof.
  induction s as [|c s IH]; [reflexivity|].
  cbn [quote_body]. now rewrite append_assoc, parse_string_body_char, IH.
Qed.

Lemma QuoteJSONString_append (s rest : string) :
  QuoteJSONString s ++ rest = String dquote (quote_body s ++ String dquote rest).
Proof. unfold QuoteJSONString. cbn [append]. now rewrite append_assoc. Qed.

Lemma delimited_cases (rest : string) :
  delimited rest = true ->
  rest = "" \/ exists c r, rest = String c r /\ (c = "," \/ c = "]" \/ c = "}")%char.
Proof.
  destruct rest as [|c r]; [now left|]. cbn [delimited]. intro H. right.
  exists c, r. split; [reflexivity|].
  apply orb_prop in H as [H|H]; [apply orb_prop in H as [H|H]|];
    apply Ascii.eqb_eq in H; auto.
Qed.

(** *** Digits *)

Lemma delimited_no_digit (rest : string) :
  delimited rest = true -> starts_digit rest = false.
Proof.
  intro Hr. destruct (delimited_cases rest Hr) as [->|(c & r & -> & Hc)];
    [reflexivity|]. destruct Hc as [->|[->| ->]]; reflexivity.
Qed.

Lemma all_digits_app (a b : string) :
  all_digits (a ++ b) = all_digits a && all_digits b.
Proof.
  induction a as [|c a IH]; [reflexivity|].
  cbn [append all_digits]. now rewrite IH, andb_assoc.
Qed.

Lemma all_digits_zeros (n : nat) : all_digits (zeros n) = true.
Proof. induction n; [reflexivity|exact IHn]. Qed.

Lemma take_drop (n : nat) (s : string) : take n s ++ drop n s = s.
Proof.
  revert s. induction n as [|n IH]; intros [|c s]; try reflexivity.
  cbn [take drop append]. now rewrite IH.
Qed.

Lemma length_take (n : nat) (s : string) :
  n <= String.length s -> String.length (take n s) = n.
Proof.
  revert s. induction n as [|n IH]; intros [|c s] H; try reflexivity.
  - cbn in H. lia.
  - cbn [take String.length] in *. rewrite IH; lia.
Qed.

Lemma length_drop (n : nat) (s : string) :
  String.length (drop n s) = String.length s - n.
Proof.
  revert s. induction n as [|n IH]; intros [|c s]; try reflexivity.
  cbn [drop String.length]. rewrite IH. lia.
Qed.

Lemma length_zeros (n : nat) : String.length (zeros n) = n.
Proof. induction n; [reflexivity|]. cbn [zeros String.length]. now rewrite IHn. Qed.

Lemma all_digits_take_drop (n : nat) (s : string) :
  all_digits s = true ->
  all_digits (take n s) = true /\ all_digits (drop n s) = true.
Proof.
  intro H. rewrite <- (take_drop n s), all_digits_app in H.
  now apply andb_prop in H.
Qed.

Lemma digit_run_app (d rest : string) :
  all_digits d = true -> starts_digit rest = false ->
  digit_run (d ++ rest) = (d, rest).
Proof.
  intros Hd Hr. induction d as [|c d IH].
  - destruct rest as [|c r]; [reflexivity|]. cbn [append digit_run].
    cbn [starts_digit] in Hr. now rewrite Hr.
  - cbn [all_digits] in Hd. apply andb_prop in Hd as [Hc Hd].
    cbn [append digit_run]. now rewrite Hc, IH.
Qed.

Lemma strip_leading_zeros_head (c : ascii) (s : string) :
  Ascii.eqb c "0" = false ->
  strip_leading_zeros (String c s) = String c s.
Proof. intro H. cbn [strip_leading_zeros]. now rewrite H. Qed.

Lemma strip_leading_zeros_zeros (i : nat) (s : string) :
  strip_leading_zeros (zeros i ++ s) = strip_leading_zeros s.
Proof. induction i as [|i IH]; [reflexivity|exact IH]. Qed.

Lemma strip_trailing_zeros_zeros (j : nat) : strip_trailing_zeros (zeros j) = "".
Proof.
  induction j as [|j IH]; [reflexivity|].
  cbn [zeros strip_trailing_zeros]. now rewrite IH.
Qed.

Lemma strip_trailing_zeros_app (s : string) (j : nat) :
  strip_trailing_zeros (s ++ zeros j) = strip_trailing_zeros s.
Proof.
  induction s as [|c s IH]; [apply strip_trailing_zeros_zeros|].
  cbn [append strip_trailing_zeros]. now rewrite IH.
Qed.

(** What well-formed digits are. *)
Lemma well_formed_digits_inv (s : string) :
  well_formed_digits s = true ->
  all_digits s = true /\
  strip_trailing_zeros s = s /\
  exists c t, s = String c t /\ Ascii.eqb c "0" = false /\ is_digit c = true.
Proof.
  unfold well_formed_digits. intro H.
  apply andb_prop in H as [H H3]. apply andb_prop in H as [H1 H2].
  apply String.eqb_eq in H3. split; [exact H1|]. split; [exact H3|].
  destruct s as [|c t]; [discriminate|]. exists c, t.
  apply negb_true_iff in H2. cbn [all_digits] in H1.
  apply andb_prop in H1 as [H1 _]. auto.
Qed.

(** The number that [zeros i ++ digits ++ zeros j] denotes with the point
    after [p] of its characters. *)
Lemma number_of_decimal_canonical (negative : bool) (digits : string)
    (i j : nat) (p : Z) :
  well_formed_digits digits = true ->
  number_of_decimal negative (zeros i ++ digits ++ zeros j) p =
    Finite negative digits (p - Z.of_nat i).
Proof.
  intro H. destruct (well_formed_digits_inv digits H)
    as (_ & Ht & c & t & -> & Hc & _).
  unfold number_of_decimal.
  rewrite strip_leading_zeros_zeros.
  change (String c t ++ zeros j) with (String c (t ++ zeros j)).
  rewrite strip_leading_zeros_head by exact Hc.
  change (String c (t ++ zeros j)) with (String c t ++ zeros j).
  rewrite strip_trailing_zeros_app, Ht.
  cbn [String.eqb]. f_equal. rewrite !length_append, length_zeros. lia.
Qed.

Lemma all_digits_string_of_uint (d : Decimal.uint) :
  all_digits (NilEmpty.string_of_uint d) = true.
Proof. induction d; cbn [NilEmpty.string_of_uint all_digits]; auto. Qed.

Lemma string_of_uint_nonnil (d : Decimal.uint) :
  d <> Decimal.Nil -> NilZero.string_of_uint d = NilEmpty.string_of_uint d.
Proof. destruct d; [contradiction|reflexivity..]. Qed.

(** The exponent of a number in exponent form: its digits denote it. *)
Lemma exponent_digits (z : Z) :
  (0 <= z)%Z ->
  all_digits (integer_to_string z) = true /\
  String.eqb (integer_to_string z) "" = false /\
  decimal_value (integer_to_string z) = z.
Proof.
  intro Hz. destruct z as [|p|p]; [repeat split| |lia].
  unfold integer_to_string. cbn [Z.to_int NilZero.string_of_int].
  pose proof (DecimalPos.Unsigned.to_uint_nonnil p) as Hnil.
  rewrite (string_of_uint_nonnil _ Hnil).
  split; [apply all_digits_string_of_uint|]. split.
  - destruct (Pos.to_uint p); [contradiction|reflexivity..].
  - unfold decimal_value. rewrite NilEmpty.usu.
    unfold Z.of_uint. now rewrite DecimalPos.Unsigned.of_to.
Qed.

Lemma number_of_decimal_leading (negative : bool) (digits : string)
    (i : nat) (p : Z) :
  well_formed_digits digits = true ->
  number_of_decimal negative (zeros i ++ digits) p =
    Finite negative digits (p - Z.of_nat i).
Proof.
  intro H. rewrite <- (number_of_decimal_canonical negative digits i 0 p H).
  cbn [zeros]. now rewrite append_nil_r.
Qed.

Lemma number_of_decimal_trailing (negative : bool) (digits : string)
    (j : nat) (p : Z) :
  well_formed_digits digits = true ->
  number_of_decimal negative (digits ++ zeros j) p = Finite negative digits p.
Proof.
  intro H. rewrite <- (Z.sub_0_r p) at 2.
  exact (number_of_decimal_canonical negative digits 0 j p H).
Qed.

Lemma number_of_decimal_digits (negative : bool) (digits : string) (p : Z) :
  well_formed_digits digits = true ->
  number_of_decimal negative digits p = Finite negative digits p.
Proof.
  intro H. rewrite <- (number_of_decimal_trailing negative digits 0 p H).
  cbn [zeros]. now rewrite append_nil_r.
Qed.

(** *** The parts of a number *)

Lemma parse_fraction_none (rest : string) :
  delimited rest = true -> parse_fraction rest = Some ("", rest).
Proof.
  intro Hr. destruct (delimited_cases rest Hr) as [->|(c & r & -> & Hc)];
    [reflexivity|]. destruct Hc as [->|[->| ->]]; reflexivity.
Qed.

Lemma parse_exponent_none (rest : string) :
  delimited rest = true -> parse_exponent rest = Some (0%Z, rest).
Proof.
  intro Hr. destruct (delimited_cases rest Hr) as [->|(c & r & -> & Hc)];
    [reflexivity|]. destruct Hc as [->|[->| ->]]; reflexivity.
Qed.

Lemma parse_fraction_digits (d rest : string) :
  all_digits d = true -> String.eqb d "" = false ->
  starts_digit rest = false ->
  parse_fraction (String "." (d ++ rest)) = Some (d, rest).
Proof.
  intros Hd Hn Hr. cbn [parse_fraction]. change (Ascii.eqb "." ".") with true.
  cbn iota. now rewrite (digit_run_app d rest Hd Hr), Hn.
Qed.

(** The exponent part as [Number::toString] writes it. *)
Lemma parse_exponent_text (z : Z) (rest : string) :
  delimited rest = true ->
  parse_exponent
    ("e" ++ (if (z <? 0)%Z then "-" else "+")
       ++ integer_to_string (Z.abs z) ++ rest) = Some (z, rest).
Proof.
  intro Hr.
  destruct (exponent_digits (Z.abs z) (Z.abs_nonneg z)) as (Hd & Hn & Hv).
  pose proof (delimited_no_digit rest Hr) as Hs.
  cbn [append parse_exponent].
  change (Ascii.eqb "e" "e" || Ascii.eqb "e" "E") with true. cbn iota.
  destruct (z <? 0)%Z eqn:Ez; cbn [append].
  - change (Ascii.eqb "-" "-") with true. cbn iota.
    rewrite (digit_run_app _ rest Hd Hs), Hn, Hv.
    apply Z.ltb_lt in Ez. do 2 f_equal. lia.
  - change (Ascii.eqb "+" "-") with false.
    change (Ascii.eqb "+" "+") with true. cbn iota.
    rewrite (digit_run_app _ rest Hd Hs), Hn, Hv.
    apply Z.ltb_ge in Ez. do 2 f_equal. lia.
Qed.

Lemma exponent_no_digit (s : string) : starts_digit ("e" ++ s) = false.
Proof. reflexivity. Qed.

Lemma point_no_digit (s : string) : starts_digit (String "." s) = false.
Proof. reflexivity. Qed.

Lemma exponent_no_fraction (s : string) :
  parse_fraction ("e" ++ s) = Some ("", "e" ++ s).
Proof. reflexivity. Qed.

(** The digits before the point are read, and the rest follows. *)
Lemma parse_magnitude_run (negative : bool) (s r1 : string) (c : ascii)
    (t : string) :
  digit_run s = (String c t, r1) ->
  t = "" \/ Ascii.eqb c "0" = false ->
  parse_magnitude negative s =
    match parse_fraction r1 with
    | Some (fraction, r2) =>
        match parse_exponent r2 with
        | Some (e, r3) =>
            Some (number_of_decimal negative (String c t ++ fraction)
                    (Z.of_nat (String.length (String c t)) + e), r3)
        | None => None
        end
    | None => None
    end.
Proof.
  intros Hrun Hc. unfold parse_magnitude. rewrite Hrun.
  destruct t as [|c' t']; [reflexivity|].
  destruct Hc as [Hc|Hc]; [discriminate|]. now rewrite Hc.
Qed.

Ltac same_point :=
  match goal with
  | |- Some (Finite _ _ ?a, _) = Some (Finite _ _ ?b, _) =>
      replace a with b; [reflexivity|]
  end.

(** The decoder reads back the text of a finite number. *)

Lemma parse_magnitude_to_string (negative : bool) (digits : string) (n : Z)
    (rest : string) :
  well_formed_digits digits = true ->
  delimited rest = true ->
  parse_magnitude negative (magnitude_to_string digits n ++ rest) =
    Some (Finite negative digits n, rest).
Proof.
  intros Hw Hr.
  destruct (well_formed_digits_inv digits Hw) as (Hd & _ & c & t & E & Hc & Hcd).
  pose proof (delimited_no_digit rest Hr) as Hs.
  unfold magnitude_to_string, number_to_string.
  change ("" ++ ?x) with x.
  destruct ((Z.of_nat (String.length digits) <=? n)%Z && (n <=? 21)%Z) eqn:Ca.
  { (* an integer written in full *)
    apply andb_prop in Ca as [Ca _]. apply Z.leb_le in Ca.
    set (j := Z.to_nat (n - Z.of_nat (String.length digits))).
    assert (digit_run ((digits ++ zeros j) ++ rest) =
            (String c (t ++ zeros j), rest)) as Hrun.
    { rewrite digit_run_app; [now rewrite E| |exact Hs].
      now rewrite all_digits_app, Hd, all_digits_zeros. }
    rewrite (parse_magnitude_run negative _ _ _ _ Hrun (or_intror Hc)).
    rewrite (parse_fraction_none rest Hr), (parse_exponent_none rest Hr).
    rewrite append_nil_r.
    change (String c (t ++ zeros j)) with (String c t ++ zeros j).
    rewrite <- E, (number_of_decimal_trailing negative digits j _ Hw).
    same_point. rewrite length_append, length_zeros. lia. }
  destruct ((0 <? n)%Z && (n <=? 21)%Z) eqn:Cb.
  { (* the point inside the digits *)
    apply andb_prop in Cb as [Cb Cb']. apply Z.ltb_lt in Cb.
    apply andb_false_iff in Ca.
    assert (n < Z.of_nat (String.length digits))%Z as Hk.
    { destruct Ca as [Ca|Ca]; [now apply Z.leb_gt in Ca|congruence]. }
    clear Ca. set (m := Z.to_nat n).
    assert (0 < m < String.length digits) as Hm by lia.
    destruct (all_digits_take_drop m digits Hd) as [Htake Hdrop].
    rewrite !append_assoc.
    assert (exists t', take m digits = String c t') as [t' Et].
    { rewrite E. destruct m as [|m']; [lia|]. now exists (take m' t). }
    assert (digit_run (take m digits ++ "." ++ drop m digits ++ rest) =
            (String c t', "." ++ drop m digits ++ rest)) as Hrun.
    { rewrite digit_run_app; [now rewrite Et|exact Htake|reflexivity]. }
    rewrite (parse_magnitude_run negative _ _ _ _ Hrun (or_intror Hc)).
    change ("." ++ drop m digits ++ rest)
      with (String "." (drop m digits ++ rest)).
    rewrite parse_fraction_digits; [|exact Hdrop| |exact Hs].
    - rewrite (parse_exponent_none rest Hr), <- Et, take_drop.
      rewrite (number_of_decimal_digits negative digits _ Hw).
      same_point. rewrite length_take; lia.
    - pose proof (length_drop m digits) as Hl.
      destruct (drop m digits); [cbn in Hl; lia|reflexivity]. }
  destruct ((-6 <? n)%Z && (n <=? 0)%Z) eqn:Cc.
  { (* zeros after the point *)
    apply andb_prop in Cc as [_ Cc]. apply Z.leb_le in Cc.
    set (j := Z.to_nat (- n)).
    cbn [append].
    assert (digit_run (String "0" (String "." ((zeros j ++ digits) ++ rest))) =
            ("0", String "." ((zeros j ++ digits) ++ rest))) as Hrun
      by reflexivity.
    rewrite (parse_magnitude_run negative _ _ _ _ Hrun (or_introl eq_refl)).
    rewrite parse_fraction_digits; [| | |exact Hs].
    - rewrite (parse_exponent_none rest Hr).
      change ("0" ++ zeros j ++ digits) with (zeros (S j) ++ digits).
      rewrite (number_of_decimal_leading negative digits (S j) _ Hw).
      same_point. cbn [String.length]. lia.
    - now rewrite all_digits_app, all_digits_zeros, Hd.
    - rewrite E. destruct j; reflexivity. }
  (* exponent form *)
  rewrite E. destruct t as [|c' t'].
  - rewrite append_assoc. cbn [append].
    assert (digit_run (String c (String "e"
              ((if (n - 1 <? 0)%Z then "-" else "+")
                 ++ integer_to_string (Z.abs (n - 1)) ++ rest))) =
            (String c "", String "e"
              ((if (n - 1 <? 0)%Z then "-" else "+")
                 ++ integer_to_string (Z.abs (n - 1)) ++ rest))) as Hrun.
    { cbn [digit_run]. now rewrite Hcd. }
    rewrite !append_assoc.
    rewrite (parse_magnitude_run negative _ _ _ _ Hrun (or_introl eq_refl)).
    change (String "e" ?s) with ("e" ++ s).
    rewrite exponent_no_fraction, (parse_exponent_text (n - 1) rest Hr).
    rewrite append_nil_r, <- E, (number_of_decimal_digits negative digits _ Hw).
    same_point. rewrite E. cbn [String.length]. lia.
  - rewrite !append_assoc. cbn [append]. rewrite ?append_assoc.
    assert (all_digits (String c' t') = true) as Ht.
    { rewrite E in Hd. cbn [all_digits] in Hd. now apply andb_prop in Hd. }
    assert (digit_run (String c (String "." (String c' (t' ++ String "e"
              ((if (n - 1 <? 0)%Z then "-" else "+")
                 ++ integer_to_string (Z.abs (n - 1)) ++ rest))))) =
            (String c "", String "." (String c' (t' ++ String "e"
              ((if (n - 1 <? 0)%Z then "-" else "+")
                 ++ integer_to_string (Z.abs (n - 1)) ++ rest))))) as Hrun.
    { cbn [digit_run]. rewrite Hcd. reflexivity. }
    rewrite (parse_magnitude_run negative _ _ _ _ Hrun (or_introl eq_refl)).
    change (String c' (t' ++ ?s)) with (String c' t' ++ s).
    rewrite parse_fraction_digits; [|exact Ht|reflexivity|reflexivity].
    change (String "e" ?s) with ("e" ++ s).
    rewrite (parse_exponent_text (n - 1) rest Hr).
    change (String c "" ++ String c' t') with (String c (String c' t')).
    rewrite <- E, (number_of_decimal_digits negative digits _ Hw).
    same_point. cbn [String.length]. lia.
Qed.

Lemma number_text (negative : bool) (digits : string) (n : Z) :
  number_to_string (Finite negative digits n) =
    (if negative then "-" else "") ++ magnitude_to_string digits n.
Proof. now destruct negative. Qed.

Lemma magnitude_head (digits : string) (n : Z) :
  well_formed_digits digits = true ->
  exists c t, magnitude_to_string digits n = String c t /\ is_digit c = true.
Proof.
  intro Hw.
  destruct (well_formed_digits_inv digits Hw) as (_ & _ & c & t & E & _ & Hc).
  unfold magnitude_to_string, number_to_string. change ("" ++ ?x) with x.
  destruct ((Z.of_nat (String.length digits) <=? n)%Z && (n <=? 21)%Z).
  { rewrite E. now exists c, (t ++ zeros (Z.to_nat (n - Z.of_nat (String.length (String c t))))). }
  destruct ((0 <? n)%Z && (n <=? 21)%Z) eqn:Cb.
  { apply andb_prop in Cb as [Cb _]. apply Z.ltb_lt in Cb.
    destruct (Z.to_nat n) as [|m] eqn:Em; [lia|]. rewrite E.
    cbn [take append]. eauto. }
  destruct ((-6 <? n)%Z && (n <=? 0)%Z).
  { cbn [append]. eexists; eexists; split; reflexivity. }
  rewrite E. destruct t; cbn [append]; eauto.
Qed.

Lemma digit_not_minus (c : ascii) : is_digit c = true -> Ascii.eqb c "-" = false.
Proof.
  intro H. apply Ascii.eqb_neq. intros ->. discriminate.
Qed.

Lemma digit_starts_number (c : ascii) : is_digit c = true -> starts_number c = true.
Proof.
  unfold is_digit, starts_number. cbn zeta. intros ->. apply orb_true_r.
Qed.

(** The decoder reads back the text of every finite number. *)
Lemma parse_number_to_string (x : number) (rest : string) :
  is_finite x = true -> well_formed_number x = true ->
  delimited rest = true ->
  parse_number (number_to_string x ++ rest) = Some (x, rest).
Proof.
  intros Hf Hw Hr. destruct x as [|s| |negative digits n]; try discriminate.
  - cbn [number_to_string append parse_number].
    change (Ascii.eqb "0" "-") with false. cbn iota.
    assert (digit_run (String "0" rest) = ("0", rest)) as Hrun
      by (apply (digit_run_app "0" rest eq_refl), delimited_no_digit, Hr).
    rewrite (parse_magnitude_run false _ _ _ _ Hrun (or_introl eq_refl)).
    now rewrite (parse_fraction_none rest Hr), (parse_exponent_none rest Hr).
  - cbn [well_formed_number] in Hw. rewrite number_text.
    destruct negative.
    + cbn [append parse_number]. change (Ascii.eqb "-" "-") with true.
      cbn iota. now apply parse_magnitude_to_string.
    + change ("" ++ ?t) with t.
      rewrite <- (parse_magnitude_to_string false digits n rest Hw Hr).
      destruct (magnitude_head digits n Hw) as (c & t & -> & Hc).
      cbn [append parse_number]. now rewrite (digit_not_minus c Hc).
Qed.

Lemma number_to_string_head (x : number) :
  is_finite x = true -> well_formed_number x = true ->
  exists c t, number_to_string x = String c t /\ starts_number c = true.
Proof.
  intros Hf Hw. destruct x as [|s| |negative digits n]; try discriminate.
  - now exists "0"%char, "".
  - rewrite number_text. destruct negative.
    + eexists; eexists; split; reflexivity.
    + destruct (magnitude_head digits n Hw) as (c & t & -> & Hc).
      exists c, t. split; [reflexivity|now apply digit_starts_number].
Qed.

(** *** Values *)

Lemma starts_value_inv (s : string) :
  starts_value s = true ->
  exists c t, s = String c t /\ is_ws c = false /\
              Ascii.eqb c "]" = false /\ Ascii.eqb c "}" = false.
Proof.
  destruct s as [|c t]; [discriminate|]. cbn [starts_value]. intro H.
  apply andb_prop in H as [H H3]. apply andb_prop in H as [H1 H2].
  exists c, t. repeat split; now apply negb_true_iff.
Qed.

Lemma starts_value_append (a b : string) :
  starts_value a = true -> starts_value (a ++ b) = true.
Proof. destruct a; [discriminate|]. intro H. exact H. Qed.

Lemma skip_ws_start (s : string) : starts_value s = true -> skip_ws s = s.
Proof.
  intro H. destruct (starts_value_inv s H) as (c & t & -> & Hc & _).
  cbn [skip_ws]. now rewrite Hc.
Qed.

Lemma starts_number_value (c : ascii) (t : string) :
  starts_number c = true -> starts_value (String c t) = true.
Proof.
  destruct c as [[|] [|] [|] [|] [|] [|] [|] [|]]; try discriminate; reflexivity.
Qed.

Lemma parse_value_number (fuel : nat) (c : ascii) (r : string) :
  starts_number c = true ->
  parse_value (S fuel) (String c r) =
    match parse_number (String c r) with
    | Some (n, r') => Some (Prim (Num n), r')
    | None => None
    end.
Proof.
  destruct c as [[|] [|] [|] [|] [|] [|] [|] [|]]; try discriminate; reflexivity.
Qed.

Lemma parse_value_string (fuel : nat) (r : string) :
  parse_value (S fuel) (String dquote r) =
    match parse_string_body r with
    | Some (t, r') => Some (Prim (Str t), r')
    | None => None
    end.
Proof. reflexivity. Qed.

Lemma parse_value_array (fuel : nat) (r : string) :
  starts_value r = true ->
  parse_value (S fuel) (String "[" r) =
    match parse_elements fuel r with
    | Some (l, r') => Some (Arr l, r')
    | None => None
    end.
Proof.
  intro H. destruct (starts_value_inv r H) as (c & t & -> & Hc & Hb & _).
  cbn. rewrite Hc, Hb. reflexivity.
Qed.

Lemma parse_value_object (fuel : nat) (r : string) :
  starts_value r = true ->
  parse_value (S fuel) (String "{" r) =
    match parse_members fuel r with
    | Some (l, r') => Some (Obj l, r')
    | None => None
    end.
Proof.
  intro H. destruct (starts_value_inv r H) as (c & t & -> & Hc & _ & Hb).
  cbn. rewrite Hc, Hb. reflexivity.
Qed.

Lemma decodes_prim (p : prim) : json_safe (Prim p) = true -> decodes (Prim p).
Proof.
  intro Hp. destruct p as [| |[|]|x|n|s]; try discriminate.
  - exists "null". repeat split; [cbn; lia|].
    intros [|fuel] rest Hf _; [cbn in Hf; lia|reflexivity].
  - exists "true". repeat split; [cbn; lia|].
    intros [|fuel] rest Hf _; [cbn in Hf; lia|reflexivity].
  - exists "false". repeat split; [cbn; lia|].
    intros [|fuel] rest Hf _; [cbn in Hf; lia|reflexivity].
  - cbn [json_safe] in Hp. apply andb_prop in Hp as [Hf Hw].
    destruct (number_to_string_head x Hf Hw) as (c & t & Hn & Hc).
    exists (number_to_string x). split; [cbn [serialize]; now rewrite Hf|].
    rewrite Hn.
    split; [now apply starts_number_value|]. split; [cbn; lia|].
    intros [|fuel] rest Hfuel Hr; [cbn in Hfuel; lia|].
    cbn [append]. rewrite parse_value_number by exact Hc.
    change (String c (t ++ rest)) with (String c t ++ rest).
    rewrite <- Hn. now rewrite parse_number_to_string.
  - exists (QuoteJSONString s). split; [reflexivity|].
    split; [reflexivity|]. split; [cbn; lia|].
    intros [|fuel] rest Hf Hr; [cbn in Hf; lia|].
    rewrite QuoteJSONString_append, parse_value_string.
    now rewrite parse_string_body_quote.
Qed.

Lemma decodes_element (x : value) :
  decodes x ->
  exists text,
    element_text x = text /\ serialize x = Ok (Some text) /\
    starts_value text = true /\
    weight x <= String.length text /\
    forall fuel rest,
      weight x <= fuel -> delimited rest = true ->
      parse_value fuel (text ++ rest) = Some (x, rest).
Proof.
  intros (text & Hs & H). exists text. unfold element_text. rewrite Hs.
  now split.
Qed.

Lemma elements_text (elems : list value) :
  Forall decodes elems ->
  forall i, SerializeJSONArray (fun _ x => serialize x) i elems =
            Ok (map element_text elems).
Proof.
  induction 1 as [|x l Hx _ IH]; intro i; [reflexivity|].
  destruct (decodes_element x Hx) as (tx & Ex & Es & _).
  cbn [SerializeJSONArray map]. now rewrite Es, IH, Ex.
Qed.

Lemma members_text (props : list (string * value)) :
  Forall (fun kx => decodes (snd kx)) props ->
  SerializeJSONObject (fun _ x => serialize x) props =
    Ok (map member_text props).
Proof.
  induction 1 as [|[k x] l Hx _ IH]; [reflexivity|].
  cbn [snd] in Hx. destruct (decodes_element x Hx) as (tx & Ex & Es & _).
  cbn [SerializeJSONObject map]. unfold member_text at 1. cbn [fst snd].
  now rewrite Es, IH, Ex.
Qed.

(** The elements of a non-empty array, up to the closing bracket. *)
Lemma parse_elements_join (elems : list value) :
  Forall decodes elems -> elems <> [] ->
  let text := join "," (map element_text elems) in
  starts_value text = true /\
  fold_right (fun x n => S (weight x + n)) O elems <= S (String.length text) /\
  forall fuel rest,
    fold_right (fun x n => S (weight x + n)) O elems <= fuel ->
    parse_elements fuel (text ++ String "]" rest) = Some (elems, rest).
Proof.
  induction 1 as [|x l Hx Hl IH]; [contradiction|]. intros _.
  destruct (decodes_element x Hx) as (tx & Ex & _ & Hstart & Hw & Hp).
  cbn [map fold_right]. rewrite Ex.
  destruct l as [|y l'].
  - cbn [map join fold_right]. split; [exact Hstart|]. split; [lia|].
    intros [|fuel] rest Hf; [lia|].
    cbn [parse_elements]. rewrite Hp by (try reflexivity; lia).
    reflexivity.
  - destruct IH as (Hs' & Hw' & Hp'); [discriminate|].
    remember (y :: l') as l eqn:El.
    assert (join "," (tx :: map element_text l) =
            tx ++ "," ++ join "," (map element_text l)) as ->
      by (subst l; reflexivity).
    split; [now apply starts_value_append|].
    split; [rewrite !length_append; cbn [String.length]; lia|].
    intros [|fuel] rest Hf; [lia|].
    cbn [parse_elements]. rewrite !append_assoc. cbn [append].
    rewrite Hp by (try reflexivity; lia).
    cbn [skip_ws]. change (is_ws ",") with false. cbn iota.
    change (Ascii.eqb "," ",") with true. cbn iota.
    now rewrite Hp' by lia.
Qed.

Lemma decodes_array (elems : list value) :
  Forall decodes elems -> decodes (Arr elems).
Proof.
  intro H. unfold decodes. cbn [serialize]. rewrite (elements_text elems H).
  destruct elems as [|x l].
  - exists "[]". repeat split; [cbn; lia|].
    intros [|fuel] rest Hf _; [cbn in Hf; lia|reflexivity].
  - destruct (parse_elements_join (x :: l) H) as (Hs & Hw & Hp); [discriminate|].
    cbn zeta in Hs, Hw, Hp.
    remember (join "," (map element_text (x :: l))) as J.
    exists ("[" ++ J ++ "]").
    split; [reflexivity|]. split; [reflexivity|].
    cbn [weight]. split.
    + cbn [append String.length]. rewrite length_append.
      cbn [String.length]. lia.
    + intros [|fuel] rest Hf Hr; [lia|].
      cbn [append]. rewrite append_assoc. cbn [append].
      rewrite parse_value_array by (now apply starts_value_append).
      now rewrite Hp by lia.
Qed.

Lemma parse_members_member (fuel : nat) (k body : string) :
  parse_members (S fuel)
    (String dquote (quote_body k ++ String dquote (String ":" body))) =
    match parse_value fuel body with
    | Some (v, r3) =>
        match skip_ws r3 with
        | String c r4 =>
            if Ascii.eqb c "," then
              match parse_members fuel r4 with
              | Some (l, r5) => Some ((k, v) :: l, r5)
              | None => None
              end
            else if Ascii.eqb c "}" then Some ([(k, v)], r4)
            else None
        | "" => None
        end
    | None => None
    end.
Proof.
  cbn [parse_members].
  change (skip_ws (String dquote ?s)) with (String dquote s).
  change (Ascii.eqb dquote dquote) with true. cbn iota.
  rewrite parse_string_body_quote.
  change (skip_ws (String ":" ?s)) with (String ":" s).
  reflexivity.
Qed.

(** The members of a non-empty object, up to the closing brace. *)
Lemma parse_members_join (props : list (string * value)) :
  Forall (fun kx => decodes (snd kx)) props -> props <> [] ->
  let text := join "," (map member_text props) in
  starts_value text = true /\
  fold_right (fun kx n => S (weight (snd kx) + n)) O props
    <= S (String.length text) /\
  forall fuel rest,
    fold_right (fun kx n => S (weight (snd kx) + n)) O props <= fuel ->
    parse_members fuel (text ++ String "}" rest) = Some (props, rest).
Proof.
  induction 1 as [|[k x] l Hx Hl IH]; [contradiction|]. intros _.
  cbn [snd] in Hx.
  destruct (decodes_element x Hx) as (tx & Ex & _ & Hstart & Hw & Hp).
  cbn [map fold_right fst snd].
  change (member_text (k, x)) with (QuoteJSONString k ++ ":" ++ element_text x).
  rewrite Ex.
  destruct l as [|y l'].
  - cbn [map join fold_right]. split; [reflexivity|].
    split; [rewrite !length_append; cbn [String.length]; lia|].
    intros [|fuel] rest Hf; [lia|].
    rewrite !append_assoc, QuoteJSONString_append. cbn [append].
    rewrite parse_members_member, Hp by (try reflexivity; lia).
    reflexivity.
  - destruct IH as (Hs' & Hw' & Hp'); [discriminate|].
    remember (y :: l') as l eqn:El.
    assert (join "," ((QuoteJSONString k ++ ":" ++ tx) :: map member_text l) =
            (QuoteJSONString k ++ ":" ++ tx) ++ "," ++ join "," (map member_text l))
      as -> by (subst l; reflexivity).
    split; [reflexivity|].
    split; [rewrite !length_append; cbn [String.length]; lia|].
    intros [|fuel] rest Hf; [lia|].
    rewrite !append_assoc, QuoteJSONString_append. cbn [append].
    rewrite parse_members_member, Hp by (try reflexivity; lia).
    change (skip_ws (String "," ?s)) with (String "," s).
    change (Ascii.eqb "," ",") with true. cbn iota.
    now rewrite Hp' by lia.
Qed.

Lemma decodes_object (props : list (string * value)) :
  Forall (fun kx => decodes (snd kx)) props -> decodes (Obj props).
Proof.
  intro H. unfold decodes. cbn [serialize]. rewrite (members_text props H).
  destruct props as [|kx l].
  - exists "{}". repeat split; [cbn; lia|].
    intros [|fuel] rest Hf _; [cbn in Hf; lia|reflexivity].
  - destruct (parse_members_join (kx :: l) H) as (Hs & Hw & Hp); [discriminate|].
    cbn zeta in Hs, Hw, Hp.
    remember (join "," (map member_text (kx :: l))) as J.
    exists ("{" ++ J ++ "}").
    split; [reflexivity|]. split; [reflexivity|].
    cbn [weight]. split.
    + cbn [append String.length]. rewrite length_append.
      cbn [String.length]. lia.
    + intros [|fuel] rest Hf Hr; [lia|].
      cbn [append]. rewrite append_assoc. cbn [append].
      rewrite parse_value_object by (now apply starts_value_append).
      now rewrite Hp by lia.
Qed.

(** Every JSON-safe value has a text from which the decoder reads it
    back. *)
Lemma json_safe_decodes (v : value) : json_safe v = true -> decodes v.
Proof.
  induction v as [p|elems IH|props IH|f|] using value_ind.
  - apply decodes_prim.
  - cbn [json_safe]. intro Hs. apply decodes_array.
    induction IH as [|x l Hx _ IHl]; [constructor|].
    cbn [forallb] in Hs. apply andb_prop in Hs as [H1 H2].
    constructor; auto.
  - cbn [json_safe]. intro Hs. apply decodes_object.
    induction IH as [|[k x] l Hx _ IHl]; [constructor|].
    cbn [forallb snd] in *. apply andb_prop in Hs as [H1 H2].
    constructor; auto.
  - discriminate.
  - discriminate.
Qed.

Lemma JSON_parse_serialize (v : value) :
  json_safe v = true ->
  exists text, serialize v = Ok (Some text) /\ JSON_parse text = Some v.
Proof.
  intro Hs. destruct (json_safe_decodes v Hs) as (text & Ht & _ & Hw & Hp).
  exists text. split; [exact Ht|]. unfold JSON_parse.
  specialize (Hp (String.length text) "" Hw eq_refl).
  rewrite append_nil_r in Hp. now rewrite Hp.
Qed.


Lemma is_null_false (v : value) : v <> Prim Null <-> is_null v = false.
Proof.
  split.
  - intro H. destruct v as [[]| | | |]; try reflexivity. now contradiction H.
  - intros H ->. discriminate.
Qed.

(** ** What a JSON text carries of a value *)





Lemma has_text_as_json (v : value) : has_text v = true -> has_text (as_json v) = true.
Proof. destruct v as [[| | |x| |]| | | |]; cbn; try congruence. now destruct (is_finite x). Qed.





Lemma json_safe_serializable (v : value) :
  json_safe v = true -> serializable v = true /\ well_formed v = true.
Proof.
  induction v as [p|elems IH|props IH|f|] using value_ind;
    cbn [json_safe serializable well_formed]; try discriminate.
  - destruct p as [| |b|x| |]; try discriminate; auto.
    intro H. apply andb_prop in H as [_ H]. auto.
  - induction IH as [|x l Hx _ IHl]; [auto|].
    cbn [forallb]. intro H. apply andb_prop in H as [H1 H2].
    destruct (Hx H1) as [-> ->]. destruct (IHl H2) as [-> ->]. auto.
  - induction IH as [|[k x] l Hx _ IHl]; [auto|].
    cbn [forallb snd] in *. intro H. apply andb_prop in H as [H1 H2].
    destruct (Hx H1) as [-> ->]. destruct (IHl H2) as [-> ->]. auto.
Qed.



Lemma serializable_omit (v : value) :
  serializable v = true -> serializable (omit_filtered v) = true.
Proof.
  unfold omit_filtered.
  induction v as [p|elems IH|props IH|f|] using value_ind;
    cbn [omit_keys serializable]; auto.
  - induction IH as [|x l Hx _ IHl]; [reflexivity|].
    cbn [map forallb]. intro Hs. apply andb_prop in Hs as [H1 H2].
    now rewrite Hx, IHl.
  - induction IH as [|[k x] l Hx _ IHl]; [reflexivity|].
    cbn [flat_map forallb snd] in *. intro Hs. apply andb_prop in Hs as [H1 H2].
    destruct (filtered k); cbn [app forallb snd]; [auto|].
    now rewrite Hx, IHl.
Qed.






(** ** The scenarios of the specification *)

Example scenario_title :
  handler sample_host read_title =
    ([EvGetLabel "pythonClientToken";
      EvStringify (Arr []) false;
      EvLog (LogText "Executing note(N1).title([])");
      EvGetNote (Str "N1");
      EvGet (HostObject 1) "title";
      EvGet (HostObject 1) "title";
      EvStringify (Prim (Str "Groceries")) true;
      EvLog (LogText ("Return value " ++ QuoteJSONString "Groceries"));
      EvStatus 201;
      EvStringify (Prim (Str "Groceries")) true;
      EvSend (Str (QuoteJSONString "Groceries"))],
     Ok tt).
Proof. reflexivity. Qed.

Example scenario_sql :
  response_of (trace (handler sample_host sql_getRows)) =
    Some {| statusCode := 201; body_text := Some "[[1]]" |} /\
  In (EvCall 11 (HObject (HostObject 2)) [Prim (Str "SELECT 1")])
     (trace (handler sample_host sql_getRows)).
Proof. split; [reflexivity|]. cbn. tauto. Qed.

Example scenario_missing_args :
  response_of (trace (handler sample_host call_without_args)) =
    Some {| statusCode := 500;
            body_text :=
              Some "TypeError: CreateListFromArrayLike called on non-object" |}.
Proof. reflexivity. Qed.

(** The root object's own [log] is called: its entry stands between the
    two entries of the script. *)
Example scenario_log :
  log_of (trace (handler sample_host call_log)) =
    [LogText ("Executing undefined(undefined).log(["
                ++ QuoteJSONString "x" ++ "])");
     LogText "x";
     LogText "Return value undefined"].
Proof. reflexivity. Qed.

(** A result that refers to itself: line 45 throws, nothing is answered. *)
Example scenario_cyclic :
  outcome (handler sample_host read_req) = Throw circular_structure /\
  response_of (trace (handler sample_host read_req)) = None.
Proof. split; reflexivity. Qed.

(** A field whose conversion to a string throws: line 11 throws, nothing is
    looked up or answered. *)
Example scenario_no_text :
  handler sample_host id_without_text =
    ([EvGetLabel "pythonClientToken"], Throw not_primitive).
Proof. reflexivity. Qed.

Example number_texts :
  number_to_string (Finite false "15" 1) = "1.5" /\
  number_to_string (Finite false "1" 22) = "1e+21" /\
  number_to_string (Finite true "1" (-6)) = "-1e-7" /\
  number_to_string (Finite false "1" (-5)) = "0.000001" /\
  number_to_string (Finite false "12345678901234568" 21)
    = "123456789012345680000" /\
  number_to_string (integer 401) = "401".
Proof. repeat split. Qed.

Example decode_with_white_space :
  JSON_parse (" [ 1 , -20, 1.5e3, " ++ String dquote "a\nb"
                ++ String dquote " , { } , null ] ") =
    Some (Arr [Prim (Num (integer 1)); Prim (Num (integer (-20)));
               Prim (Num (integer 1500));
               Prim (Str (String "a" (String (ascii_of_nat 10) "b")));
               Obj []; Prim Null]).
Proof. reflexivity. Qed.

Example decode_rejects :
  JSON_parse "01" = None /\ JSON_parse "[1,]" = None /\
  JSON_parse "nul" = None /\ JSON_parse "null null" = None /\
  JSON_parse "1." = None /\ JSON_parse "1e" = None /\ JSON_parse "NaN" = None.
Proof. repeat split. Qed.

(** * The claims *)

Ltac with_secret := exists (Str "secret"); split; reflexivity.

(** C1 (the code fails it).  A request for a note the host does not know
    passes the token check and resolves to [null]; the member read of line
    25, which stands before the [try] block, throws a TypeError that nothing
    in the script catches: the script ends with the exception and no
    response has been sent. *)
Theorem C1_unknown_note_escapes :
  authenticated sample_host call_unknown_note /\
  resolve sample_host (objtype call_unknown_note) (objid call_unknown_note) =
    ([EvGetNote (Str "nope")], Ok HNull) /\
  handler sample_host call_unknown_note =
    ([EvGetLabel "pythonClientToken";
      EvStringify (Arr []) false;
      EvLog (LogText "Executing note(nope).getTitle([])");
      EvGetNote (Str "nope")],
     Throw (TypeError "Cannot read properties of null (reading 'getTitle')")) /\
  response_of (trace (handler sample_host call_unknown_note)) = None.
Proof. repeat split. with_secret. Qed.

(** C2, as stated, fails: the member [missingMethod] does not exist on the
    note, the invocation result is [undefined], and the response is 201, not
    400. *)
Lemma C2_undefined_is_not_400 :
  authenticated sample_host call_missing /\
  outcome (invocation sample_host call_missing) = Ok (Prim Undefined) /\
  response_of (trace (handler sample_host call_missing)) =
    Some {| statusCode := 201; body_text := None |} /\
  response_of (trace (handler sample_host call_missing)) <>
    Some {| statusCode := 400; body_text := None |}.
Proof. repeat split; [with_secret|discriminate]. Qed.

(** C2, amended.  For every authenticated request that gets past line 11
    and whose invocation result is [null], the response has status 400 and
    an empty body; when the result is [undefined] (as for a member that does
    not exist) the response has status 201 and an empty body.  In both cases
    no text is given to [res.send]. *)
Theorem C2_empty_results (api : Host) (b : body) (v : value) :
  authenticated api b ->
  announced api b ->
  outcome (invocation api b) = Ok v ->
  (v = Prim Null ->
   response_of (trace (handler api b)) =
     Some {| statusCode := 400; body_text := None |}) /\
  (v = Prim Undefined ->
   response_of (trace (handler api b)) =
     Some {| statusCode := 201; body_text := None |}) /\
  (v = Prim Null \/ v = Prim Undefined ->
   Forall (fun ev => sends_text ev = false) (trace (handler api b))).
Proof.
  intros Ha Hn Hv.
  destruct (proj1 (announced_message api b) Hn) as [msg Hm].
  destruct (handler_result_response api b msg v Ha Hm Hv) as [Hr _].
  rewrite Hr, response_of_respond.
  split; [now intros ->|]. split; [now intros ->|].
  intro Hnull. rewrite (handler_result api b v Ha Hn Hv). of_pair.
  apply Forall_app. split.
  - generalize (preamble_not_result api b). apply Forall_impl. now intros ev [_ H].
  - apply Forall_app. split.
    + apply invocation_not_text, invocation_events.
    + rewrite respond_run. destruct Hnull as [-> | ->]; repeat constructor.
Qed.

Lemma C2_empty_results_witness :
  (authenticated sample_host call_getNothing /\
   announced sample_host call_getNothing /\
   outcome (invocation sample_host call_getNothing) = Ok (Prim Null) /\
   response_of (trace (handler sample_host call_getNothing)) =
     Some {| statusCode := 400; body_text := None |}) /\
  (authenticated sample_host call_missing /\
   announced sample_host call_missing /\
   outcome (invocation sample_host call_missing) = Ok (Prim Undefined) /\
   response_of (trace (handler sample_host call_missing)) =
     Some {| statusCode := 201; body_text := None |}).
Proof.
  assert (authenticated sample_host call_getNothing) as Ha by with_secret.
  assert (authenticated sample_host call_missing) as Ha' by with_secret.
  split; (split; [assumption|]); (split; [reflexivity|]);
    (split; [reflexivity|]).
  - exact (proj1 (C2_empty_results sample_host call_getNothing (Prim Null)
                    Ha eq_refl eq_refl) eq_refl).
  - exact (proj1 (proj2 (C2_empty_results sample_host call_missing
                           (Prim Undefined) Ha' eq_refl eq_refl)) eq_refl).
Defined.

(** C3.  For every request whose token differs from the value of the
    [pythonClientToken] label of the current note, the script reads the
    label, sends 401 and returns: the response is 401, and no object is
    resolved, no member is read or called, and nothing is logged. *)
Theorem C3_wrong_token_rejected (api : Host) (b : body) (expected : prim) :
  currentNote_getLabel api "pythonClientToken" = Some expected ->
  pythonClientToken b <> Prim expected ->
  handler api b =
    ([EvGetLabel "pythonClientToken"; EvSend (Num (integer 401))], Ok tt) /\
  response_of (trace (handler api b)) =
    Some {| statusCode := 401; body_text := None |} /\
  Forall (fun ev => is_dispatch ev = false /\ is_log ev = false)
         (trace (handler api b)).
Proof.
  intros Hl Hne. apply strict_eq_differ in Hne.
  rewrite (handler_rejected api b expected Hl Hne).
  repeat split; repeat constructor.
Qed.

Lemma C3_wrong_token_rejected_witness :
  currentNote_getLabel sample_host "pythonClientToken" = Some (Str "secret") /\
  pythonClientToken wrong_token <> Prim (Str "secret") /\
  response_of (trace (handler sample_host wrong_token)) =
    Some {| statusCode := 401; body_text := None |}.
Proof.
  split; [reflexivity|]. split; [discriminate|].
  apply (C3_wrong_token_rejected sample_host wrong_token (Str "secret"));
    [reflexivity|discriminate].
Defined.

(** C4, as stated, fails: [objtype] need not be a string.  The array
    [["note"]] is none of the four tags, yet ['note' == objtype] holds, for
    [==] compares the array by its text: the note is looked up, and the
    target is not the root object. *)
Lemma C4_array_is_a_note :
  objtype note_in_array <> Prim (Str "note") /\
  objtype note_in_array <> Prim (Str "branch") /\
  objtype note_in_array <> Prim (Str "attribute") /\
  objtype note_in_array <> Prim (Str "sql") /\
  loose_eq_tag sample_host "note" (objtype note_in_array) = Ok true /\
  resolve sample_host (objtype note_in_array) (objid note_in_array) =
    ([EvGetNote (Str "N1")], Ok (HObject (HostObject 1))) /\
  resolve sample_host (objtype note_in_array) (objid note_in_array) <>
    ([], Ok (HObject Api)) /\
  In (EvGetNote (Str "N1")) (trace (handler sample_host note_in_array)).
Proof.
  repeat split; try discriminate. cbn. tauto.
Qed.

(** C4, amended.  Lines 14-23 go by the primitive that [objtype] converts
    to, which for a primitive is [objtype] itself: ['note'] resolves to
    [api.getNote(objid)], ['branch'] to [api.getBranch(objid)],
    ['attribute'] to [api.getAttribute(objid)], ['sql'] to [api.sql]
    whatever [objid] is, and every other primitive, [undefined] of an absent
    field included, to [api] itself, without calling the host.  When the
    conversion throws, so does line 15, and the host is not called. *)
Theorem C4_resolver (api : Host) (b : body) :
  (forall p, objtype b = Prim p ->
     ToPrimitive api HintDefault (objtype b) = Ok p) /\
  (forall p, ToPrimitive api HintDefault (objtype b) = Ok p ->
     (p = Str "note" ->
      resolve api (objtype b) (objid b) =
        ([EvGetNote (objid b)], Ok (getNote api (objid b)))) /\
     (p = Str "branch" ->
      resolve api (objtype b) (objid b) =
        ([EvGetBranch (objid b)], Ok (getBranch api (objid b)))) /\
     (p = Str "attribute" ->
      resolve api (objtype b) (objid b) =
        ([EvGetAttribute (objid b)], Ok (getAttribute api (objid b)))) /\
     (p = Str "sql" ->
      resolve api (objtype b) (objid b) = ([EvSql], Ok (sql api))) /\
     (p = Undefined ->
      resolve api (objtype b) (objid b) = ([], Ok (HObject Api))) /\
     (p <> Str "note" -> p <> Str "branch" ->
      p <> Str "attribute" -> p <> Str "sql" ->
      resolve api (objtype b) (objid b) = ([], Ok (HObject Api)))) /\
  (forall e, ToPrimitive api HintDefault (objtype b) = Throw e ->
     resolve api (objtype b) (objid b) = ([], Throw e)).
Proof.
  split; [now intros p ->|]. split; [|apply resolve_throws].
  intros p Hp. rewrite (resolve_primitive api _ (objid b) p Hp).
  repeat split; try (intros ->; reflexivity).
  intros H1 H2 H3 H4.
  assert (forall lit, p <> Str lit -> prim_eqb p (Str lit) = false) as Hne.
  { intros lit H. destruct (prim_eqb p (Str lit)) eqn:E; [|reflexivity].
    apply prim_eqb_eq in E. contradiction. }
  now rewrite !Hne by assumption.
Qed.

Lemma C4_resolver_witness :
  ToPrimitive sample_host HintDefault (objtype call_getTitle) = Ok (Str "note") /\
  resolve sample_host (objtype call_getTitle) (objid call_getTitle) =
    ([EvGetNote (Str "N1")], Ok (HObject (HostObject 1))) /\
  ToPrimitive sample_host HintDefault (objtype note_in_array) = Ok (Str "note") /\
  resolve sample_host (objtype note_in_array) (objid note_in_array) =
    ([EvGetNote (Str "N1")], Ok (HObject (HostObject 1))) /\
  objtype no_token = Prim Undefined /\
  resolve sample_host (objtype no_token) (objid no_token) =
    ([], Ok (HObject Api)).
Proof.
  split; [reflexivity|].
  split; [exact (proj1 (proj1 (proj2 (C4_resolver sample_host call_getTitle))
                          (Str "note") eq_refl) eq_refl)|].
  split; [reflexivity|].
  split; [exact (proj1 (proj1 (proj2 (C4_resolver sample_host note_in_array))
                          (Str "note") eq_refl) eq_refl)|].
  split; [reflexivity|].
  apply (proj1 (proj2 (C4_resolver sample_host no_token)) Undefined
           (proj1 (C4_resolver sample_host no_token) Undefined eq_refl));
    discriminate.
Defined.

Lemma resolve_not_call (api : Host) (kind id : value) :
  Forall (fun ev => is_call ev = false) (trace (resolve api kind id)).
Proof.
  destruct (ToPrimitive api HintDefault kind) as [p|e] eqn:E.
  - rewrite (resolve_primitive api kind id p E).
    destruct (prim_eqb p (Str "note")); [repeat constructor|].
    destruct (prim_eqb p (Str "branch")); [repeat constructor|].
    destruct (prim_eqb p (Str "attribute")); [repeat constructor|].
    destruct (prim_eqb p (Str "sql")); repeat constructor.
  - rewrite (resolve_throws api kind id e E). constructor.
Qed.

Lemma not_dispatch_not_call (t : list event) :
  Forall (fun ev => is_dispatch ev = false) t ->
  Forall (fun ev => is_call ev = false) t.
Proof. apply Forall_impl. intros [] H; try discriminate; reflexivity. Qed.

(** The lookup of a member of a host object. *)
Lemma lookup_member (api : Host) (b : body) (o : object) (key : string) :
  outcome (resolve api (objtype b) (objid b)) = Ok (HObject o) ->
  ToPropertyKey api (methodName b) = Ok key ->
  lookup api b =
    ((trace (resolve api (objtype b) (objid b)) ++ [EvGet o key])%list,
     match Get api o key with
     | Ok m => Ok (HObject o, m)
     | Throw e => Throw e
     end).
Proof.
  intros Hres Hk. unfold lookup, get_member. revert Hres. run.
  destruct (resolve api (objtype b) (objid b)) as [t r]. cbn [fst snd].
  intros ->. rewrite Hk. cbn [fst snd app].
  destruct (Get api o key); cbn [fst snd app];
    now rewrite ?List.app_nil_r.
Qed.

(** The [try] block on a member of a host object. *)
Lemma invoke_member (api : Host) (b : body) (o : object) (key : string)
    (ret0 : value) :
  ToPropertyKey api (methodName b) = Ok key ->
  invoke api (HObject o) (methodName b) (args b) ret0 =
    match Get api o key with
    | Throw e => ([EvGet o key], Throw e)
    | Ok m =>
        if String.eqb "function" (typeof m) then
          let (t, r) := Reflect_apply api m (HObject o) (args b) in
          (EvGet o key :: EvGet o key :: t, r)
        else ([EvGet o key], Ok ret0)
    end.
Proof.
  intro Hk. unfold invoke, get_member. rewrite Hk. run.
  destruct (Get api o key) as [m|e]; cbn [fst snd app]; [|reflexivity].
  destruct (String.eqb "function" (typeof m)); [|reflexivity].
  cbn [fst snd app]. now destruct (Reflect_apply api m (HObject o) (args b)).
Qed.

(** C5.  For every authenticated request that gets past line 11 and whose
    target is a host object: a member that is a function is applied, through
    [Reflect.apply], with the target as receiver and the elements of [args]
    in their order, whatever their number and types, and what it returns or
    throws decides the rest of the script, after what it wrote to the log; a
    member that is not a function is the invocation result as it was read,
    and nothing is called. *)
Theorem C5_call_or_read (api : Host) (b : body) (o : object) (key : string) :
  authenticated api b ->
  announced api b ->
  outcome (resolve api (objtype b) (objid b)) = Ok (HObject o) ->
  ToPropertyKey api (methodName b) = Ok key ->
  let resolved := trace (resolve api (objtype b) (objid b)) in
  (forall f l,
     Get api o key = Ok (Fun f) -> args b = Arr l ->
     handler api b =
       ((preamble api b ++ resolved
           ++ [EvGet o key; EvGet o key; EvGet o key; EvCall f (HObject o) l]
           ++ map EvLog (fst (Call api f (HObject o) l))
           ++ finish (snd (Call api f (HObject o) l)))%list,
        outcome (after_try (snd (Call api f (HObject o) l))))) /\
  (forall v,
     Get api o key = Ok v -> typeof v <> "function" ->
     outcome (invocation api b) = Ok v /\
     handler api b =
       ((preamble api b ++ resolved ++ [EvGet o key; EvGet o key]
           ++ finish (Ok v))%list, outcome (respond v)) /\
     Forall (fun ev => is_call ev = false) (trace (handler api b))).
Proof.
  intros Ha Hn Hres Hk resolved.
  pose proof (lookup_member api b o key Hres Hk) as Hl.
  pose proof (invoke_member api b o key) as Hi.
  split.
  - intros f l Hg Hargs.
    rewrite (handler_authenticated api b Ha Hn), Hl, Hg, (Hi (Fun f) Hk), Hg.
    cbn [typeof String.eqb Ascii.eqb Bool.eqb].
    unfold Reflect_apply, CreateListFromArrayLike, host_call.
    rewrite Hargs. run. fold resolved.
    now rewrite <- !List.app_assoc.
  - intros v Hg Hv.
    assert (String.eqb "function" (typeof v) = false) as Hty.
    { apply String.eqb_neq. congruence. }
    assert (handler api b =
      ((preamble api b ++ resolved ++ [EvGet o key; EvGet o key]
          ++ finish (Ok v))%list, outcome (respond v))) as Hh.
    { rewrite (handler_authenticated api b Ha Hn), Hl, Hg, (Hi v Hk), Hg, Hty.
      fold resolved. now rewrite <- !List.app_assoc. }
    split; [|split].
    + unfold invocation. rewrite Hl, Hg. run. rewrite (Hi v Hk), Hg, Hty.
      reflexivity.
    + exact Hh.
    + rewrite Hh. of_pair.
      apply Forall_app. split;
        [apply not_dispatch_not_call, preamble_not_dispatch|].
      apply Forall_app. split; [apply resolve_not_call|].
      apply Forall_app. split; [repeat constructor|].
      apply not_dispatch_not_call, respond_not_dispatch.
Qed.

Lemma C5_call_or_read_witness :
  authenticated sample_host call_fail /\
  announced sample_host call_fail /\
  outcome (resolve sample_host (objtype call_fail) (objid call_fail)) =
    Ok (HObject (HostObject 1)) /\
  ToPropertyKey sample_host (methodName call_fail) = Ok "fail" /\
  Get sample_host (HostObject 1) "fail" = Ok (Fun 8) /\
  Get sample_host (HostObject 1) "title" = Ok (Prim (Str "Groceries")) /\
  typeof (Prim (Str "Groceries")) <> "function" /\
  In (EvCall 8 (HObject (HostObject 1)) [Prim (Num (integer 1))])
     (trace (handler sample_host call_fail)) /\
  outcome (invocation sample_host read_title) = Ok (Prim (Str "Groceries")).
Proof.
  assert (authenticated sample_host call_fail) as Ha by with_secret.
  assert (authenticated sample_host read_title) as Ha' by with_secret.
  split; [exact Ha|]. do 5 (split; [reflexivity|]).
  split; [discriminate|]. split.
  - rewrite (proj1 (C5_call_or_read sample_host call_fail (HostObject 1) "fail"
                      Ha eq_refl eq_refl eq_refl)
               8 [Prim (Num (integer 1))] eq_refl eq_refl).
    cbn. tauto.
  - apply (proj2 (C5_call_or_read sample_host read_title (HostObject 1) "title"
                    Ha' eq_refl eq_refl eq_refl)
             (Prim (Str "Groceries")) eq_refl).
    discriminate.
Defined.

(** C6.  For every authenticated request that gets past line 11, whose
    lookup succeeded and whose [try] block (the test of the member for a
    function and its call) throws [e]: the script logs [e], then answers 500
    with [String(e)] as body, and returns; nothing was sent before the log
    entry, and [JSON.stringify] is never applied to a result. *)
Theorem C6_failure_reported (api : Host) (b : body) (t t' : list event)
    (obj : handle) (ret0 : value) (e : exn) :
  authenticated api b ->
  announced api b ->
  lookup api b = (t, Ok (obj, ret0)) ->
  invoke api obj (methodName b) (args b) ret0 = (t', Throw e) ->
  handler api b =
    ((preamble api b ++ t ++ t'
        ++ [EvLog (LogExn e); EvStatus 500; EvSend (Str (exn_to_string e))])%list,
     Ok tt) /\
  response_of (trace (handler api b)) =
    Some {| statusCode := 500; body_text := Some (exn_to_string e) |} /\
  Forall (fun ev => is_res ev = false) (preamble api b ++ t ++ t')%list /\
  Forall (fun ev => is_result_stringify ev = false) (trace (handler api b)).
Proof.
  intros Ha Hn Hl Hi.
  pose proof (dispatch_invocation _ (lookup_dispatch api b)) as Dl.
  rewrite Hl in Dl.
  pose proof (invoke_invocation api obj (methodName b) (args b) ret0) as Di.
  rewrite Hi in Di. unfold trace in Dl, Di. cbn [fst] in Dl, Di.
  assert (Forall (fun ev => is_res ev = false) (preamble api b ++ t ++ t')%list)
    as Hpre.
  { apply Forall_app. split; [apply preamble_not_res|].
    apply Forall_app; split; now apply invocation_not_res. }
  assert (handler api b =
    ((preamble api b ++ t ++ t'
        ++ [EvLog (LogExn e); EvStatus 500; EvSend (Str (exn_to_string e))])%list,
     Ok tt)) as Hh.
  { rewrite (handler_authenticated api b Ha Hn), Hl, Hi. reflexivity. }
  split; [exact Hh|]. rewrite Hh. of_pair.
  split; [|split; [exact Hpre|]].
  - unfold response_of. rewrite !List.app_assoc.
    rewrite res_calls_skip by (now rewrite <- List.app_assoc). reflexivity.
  - apply Forall_app. split.
    + generalize (preamble_not_result api b). apply Forall_impl.
      now intros ev [H _].
    + repeat (apply Forall_app; split);
        try now apply invocation_not_stringify.
      repeat constructor.
Qed.

Lemma C6_failure_reported_witness :
  authenticated sample_host call_fail /\
  announced sample_host call_fail /\
  lookup sample_host call_fail =
    ([EvGetNote (Str "N1"); EvGet (HostObject 1) "fail"],
     Ok (HObject (HostObject 1), Fun 8)) /\
  invoke sample_host (HObject (HostObject 1)) (Str "fail")
         (Arr [Prim (Num (integer 1))]) (Fun 8) =
    ([EvGet (HostObject 1) "fail"; EvGet (HostObject 1) "fail";
      EvCall 8 (HObject (HostObject 1)) [Prim (Num (integer 1))]],
     Throw (ErrorObject "TypeError" "x is not a function")) /\
  response_of (trace (handler sample_host call_fail)) =
    Some {| statusCode := 500;
            body_text := Some "TypeError: x is not a function" |}.
Proof.
  assert (authenticated sample_host call_fail) as Ha by with_secret.
  split; [exact Ha|]. do 3 (split; [reflexivity|]).
  exact (proj1 (proj2 (C6_failure_reported sample_host call_fail _ _ _ _ _
                         Ha eq_refl eq_refl eq_refl))).
Defined.




(** C8.  Round trip: for every JSON-safe invocation result [v] that is not
    [null] and has no key named [children] or [parents] anywhere, the
    response is 201 and decoding its body as JSON gives [v]. *)
Theorem C8_round_trip (api : Host) (b : body) (v : value) :
  authenticated api b ->
  announced api b ->
  outcome (invocation api b) = Ok v ->
  json_safe v = true ->
  v <> Prim Null ->
  no_filtered_key v = true ->
  exists text,
    response_of (trace (handler api b)) =
      Some {| statusCode := 201; body_text := Some text |} /\
    JSON_parse text = Some v.
Proof.
  intros Ha Hn Hv Hs Hnull Hk. apply is_null_false in Hnull.
  destruct (proj1 (announced_message api b) Hn) as [msg Hm].
  destruct (handler_result_response api b msg v Ha Hm Hv) as [Hr _].
  destruct (JSON_parse_serialize v Hs) as (text & Ht & Hp).
  exists text. split; [|exact Hp].
  now rewrite Hr, response_of_respond, JSON_stringify_replacer,
    (omit_filtered_id v Hk), Ht, Hnull.
Qed.

Lemma C8_round_trip_witness :
  authenticated sample_host call_getParentless /\
  announced sample_host call_getParentless /\
  outcome (invocation sample_host call_getParentless) = Ok parentless /\
  response_of (trace (handler sample_host call_getParentless)) =
    Some {| statusCode := 201;
            body_text :=
              Some ("{" ++ QuoteJSONString "title" ++ ":" ++ QuoteJSONString "A"
                      ++ "," ++ QuoteJSONString "rows"
                      ++ ":[[1,1.5,1e+21]]}") |} /\
  exists text,
    response_of (trace (handler sample_host call_getParentless)) =
      Some {| statusCode := 201; body_text := Some text |} /\
    JSON_parse text = Some parentless.
Proof.
  assert (authenticated sample_host call_getParentless) as Ha by with_secret.
  split; [exact Ha|]. do 3 (split; [reflexivity|]).
  apply (C8_round_trip sample_host call_getParentless _ Ha eq_refl eq_refl);
    [reflexivity|discriminate|reflexivity].
Defined.

(** What is served starts with line 11: it is not the 401 answer. *)
Lemma serve_not_rejected (api : Host) (b : body) :
  serve api b <> ([EvSend (Num (integer 401))], Ok tt).
Proof.
  unfold serve. destruct (executing_message api b) as [msg|e] eqn:E.
  - rewrite (announce_message api b msg E). run.
    destruct (resolve api (objtype b) (objid b)) as [t1 [obj|e]];
      cbn [fst snd app]; [|discriminate].
    destruct (get_member api obj (methodName b)) as [t2 [ret0|e]];
      cbn [fst snd app]; [|discriminate].
    unfold try_catch.
    destruct (invoke api obj (methodName b) (args b) ret0) as [t3 [v|e]].
    + destruct (respond v). discriminate.
    + destruct (report e). discriminate.
  - destruct (announce_throws api b e E) as [Ho _]. revert Ho. run.
    destruct (announce api b) as [t r]. cbn [fst snd]. intros ->. discriminate.
Qed.

(** C9.  With the label present, the script goes past the token check, to
    line 11, exactly when the token of the request is strictly equal to the
    value of the label (the same primitive, which is not NaN), and answers
    401 exactly when it is not; a request without a token goes past the
    check when the value of the label is [undefined] too. *)
Theorem C9_token_check (api : Host) (b : body) (expected : prim) :
  currentNote_getLabel api "pythonClientToken" = Some expected ->
  (strict_eq (pythonClientToken b) expected = true <->
   strictly_equal (pythonClientToken b) expected) /\
  (handler api b =
     (EvGetLabel "pythonClientToken" :: trace (serve api b),
      outcome (serve api b)) <->
   strictly_equal (pythonClientToken b) expected) /\
  (handler api b =
     ([EvGetLabel "pythonClientToken"; EvSend (Num (integer 401))], Ok tt)
   <-> ~ strictly_equal (pythonClientToken b) expected) /\
  (pythonClientToken b = Prim Undefined -> expected = Undefined ->
   handler api b =
     (EvGetLabel "pythonClientToken" :: trace (serve api b),
      outcome (serve api b))).
Proof.
  intro Hl.
  assert (strictly_equal (pythonClientToken b) expected ->
          handler api b =
            (EvGetLabel "pythonClientToken" :: trace (serve api b),
             outcome (serve api b))) as Hpass.
  { intro He. apply strict_eq_true in He. apply handler_serves.
    exists expected. auto. }
  assert (~ strictly_equal (pythonClientToken b) expected ->
          handler api b =
            ([EvGetLabel "pythonClientToken"; EvSend (Num (integer 401))], Ok tt))
    as Hfail.
  { intro Hne. apply handler_rejected with expected; [exact Hl|].
    now apply strict_eq_false. }
  assert ((EvGetLabel "pythonClientToken" :: trace (serve api b),
           outcome (serve api b)) <>
          ([EvGetLabel "pythonClientToken"; EvSend (Num (integer 401))], Ok tt))
    as Hdiff.
  { intro H. apply (serve_not_rejected api b).
    destruct (serve api b) as [t r]. cbn [trace outcome fst snd] in H.
    now injection H as -> ->. }
  split; [apply strict_eq_true|]. split; [|split].
  - split; [|exact Hpass]. intro Hh.
    destruct (strict_eq (pythonClientToken b) expected) eqn:E;
      [now apply strict_eq_true|].
    apply strict_eq_false in E. rewrite (Hfail E) in Hh. now contradiction Hdiff.
  - split; [|exact Hfail]. intros Hh Heq.
    rewrite (Hpass Heq) in Hh. contradiction.
  - intros Ht He. apply Hpass. split; [congruence|]. subst. discriminate.
Qed.

Lemma C9_token_check_witness :
  currentNote_getLabel unset_host "pythonClientToken" = Some Undefined /\
  pythonClientToken no_token = Prim Undefined /\
  handler unset_host no_token =
    (EvGetLabel "pythonClientToken" :: trace (serve unset_host no_token),
     outcome (serve unset_host no_token)) /\
  response_of (trace (handler unset_host no_token)) =
    Some {| statusCode := 201; body_text := None |}.
Proof.
  split; [reflexivity|]. split; [reflexivity|]. split; [|reflexivity].
  apply (C9_token_check unset_host no_token Undefined eq_refl); reflexivity.
Defined.



(** * Further properties of the script *)

(** ** The runs of the script *)

(** Lines 14-23 make at most one host lookup, with the [objid] of the
    request. *)
Lemma resolve_shape (api : Host) (kind id : value) :
  (exists r, resolve api kind id = ([], r)) \/
  (exists ev obj, resolve api kind id = ([ev], Ok obj) /\
                  is_resolution ev = true /\
                  forall b, objid b = id -> on_target api b ev).
Proof.
  destruct (ToPrimitive api HintDefault kind) as [p|e] eqn:E.
  - rewrite (resolve_primitive api kind id p E).
    destruct (prim_eqb p (Str "note"));
      [|destruct (prim_eqb p (Str "branch"));
        [|destruct (prim_eqb p (Str "attribute"));
          [|destruct (prim_eqb p (Str "sql"))]]];
      try (left; eexists; reflexivity); right; eexists; eexists;
      (split; [reflexivity|]); (split; [reflexivity|]);
      intros b Hb; cbn; auto.
  - rewrite (resolve_throws api kind id e E). left. eexists. reflexivity.
Qed.

(** Lines 14-25: the lookup, then one read of the member on the resolved
    object, unless there is no object or the key has no text. *)
Lemma lookup_shape (api : Host) (b : body) :
  exists tr th r,
    lookup api b = ((tr ++ th)%list, r) /\
    trace (resolve api (objtype b) (objid b)) = tr /\
    (tr = [] \/ exists ev, tr = [ev] /\ is_resolution ev = true /\
                           on_target api b ev) /\
    (th = [] /\ (forall x, r <> Ok x) \/
     exists o key, th = [EvGet o key] /\
               ToPropertyKey api (methodName b) = Ok key /\
               outcome (resolve api (objtype b) (objid b)) = Ok (HObject o)) /\
    (forall obj ret0, r = Ok (obj, ret0) ->
       outcome (resolve api (objtype b) (objid b)) = Ok obj).
Proof.
  unfold lookup.
  assert (exists tr ro, resolve api (objtype b) (objid b) = (tr, ro) /\
            (tr = [] \/ exists ev, tr = [ev] /\ is_resolution ev = true /\
                                   on_target api b ev)) as (tr & ro & Er & Htr).
  { destruct (resolve_shape api (objtype b) (objid b))
      as [[r H]|(ev & obj & H & Hev & Hon)].
    - exists [], r. split; [exact H|now left].
    - exists [ev], (Ok obj). split; [exact H|]. right. exists ev. auto. }
  rewrite Er. unfold get_member. run.
  destruct ro as [[| |o]|e]; cbn [fst snd app].
  - exists tr, [], (Throw (TypeError
      ("Cannot read properties of null" ++ reading api (methodName b)))).
    repeat split; auto.
    + left. split; [reflexivity|discriminate].
    + discriminate.
  - exists tr, [], (Throw (TypeError
      ("Cannot read properties of undefined" ++ reading api (methodName b)))).
    repeat split; auto.
    + left. split; [reflexivity|discriminate].
    + discriminate.
  - destruct (ToPropertyKey api (methodName b)) as [key|e] eqn:Ek;
      cbn [fst snd app].
    + destruct (Get api o key) as [v|e]; cbn [fst snd app].
      * exists tr, [EvGet o key], (Ok (HObject o, v)).
        repeat split; auto.
        -- right. exists o, key. auto.
        -- now intros obj ret0 [= <- _].
      * exists tr, [EvGet o key], (Throw e).
        repeat split; auto.
        -- right. exists o, key. auto.
        -- discriminate.
    + exists tr, [], (Throw e). repeat split; auto.
      * left. split; [reflexivity|discriminate].
      * discriminate.
  - exists tr, [], (Throw e). repeat split; auto.
    + now rewrite List.app_nil_r.
    + left. split; [reflexivity|discriminate].
    + discriminate.
Qed.

(** [Reflect.apply] calls at most one function, with the receiver it was
    given; what follows the call is what the function wrote to the log. *)
Lemma Reflect_apply_shape (api : Host) (target : value) (this : handle)
    (a : value) :
  trace (Reflect_apply api target this a) = [] \/
  exists f l, target = Fun f /\
              trace (Reflect_apply api target this a) =
                EvCall f this l :: map EvLog (fst (Call api f this l)).
Proof.
  destruct target as [p|l|ps|f|]; try now left.
  unfold Reflect_apply, CreateListFromArrayLike, host_call.
  destruct a as [p|l|ps|g|]; run.
  - now left.
  - right. now exists f, l.
  - destruct (array_like api (Obj ps)) as [l|e]; cbn [fst snd app];
      [right; now exists f, l|now left].
  - destruct (array_like api (Fun g)) as [l|e]; cbn [fst snd app];
      [right; now exists f, l|now left].
  - destruct (array_like api Circular) as [l|e]; cbn [fst snd app];
      [right; now exists f, l|now left].
Qed.

(** Lines 27-29: one or two more reads of the member, then at most one
    call, then what the called function wrote to the log. *)
Lemma invoke_shape (api : Host) (obj : handle) (name a ret0 : value) :
  exists th tc entries,
    trace (invoke api obj name a ret0) = (th ++ tc ++ map EvLog entries)%list /\
    (th = [] \/
     exists o key, obj = HObject o /\ ToPropertyKey api name = Ok key /\
               (th = [EvGet o key] \/ th = [EvGet o key; EvGet o key])) /\
    (tc = [] /\ entries = [] \/ exists f l, tc = [EvCall f obj l]).
Proof.
  unfold invoke, get_member.
  destruct obj as [| |o]; run; try (exists [], [], []; now auto).
  destruct (ToPropertyKey api name) as [key|e] eqn:Ek; cbn [fst snd app];
    [|exists [], [], []; now auto].
  destruct (Get api o key) as [m|e]; cbn [fst snd app].
  - destruct (String.eqb "function" (typeof m)); cbn [fst snd app].
    + destruct (Reflect_apply_shape api m (HObject o) a) as [H|(f & l & _ & H)];
        unfold trace in H;
        destruct (Reflect_apply api m (HObject o) a) as [tc r];
        cbn [fst snd] in *; subst tc.
      * exists [EvGet o key; EvGet o key], [], []. split; [reflexivity|].
        split; [right; exists o, key; auto|now left].
      * exists [EvGet o key; EvGet o key], [EvCall f (HObject o) l],
          (fst (Call api f (HObject o) l)).
        split; [reflexivity|]. split; [right; exists o, key; auto|].
        right. now exists f, l.
    + exists [EvGet o key], [], []. split; [reflexivity|].
      split; [right; exists o, key; auto|now left].
  - exists [EvGet o key], [], []. split; [reflexivity|].
    split; [right; exists o, key; auto|now left].
Qed.

(** Every run of the script is of one of five kinds. *)
Lemma handler_runs (api : Host) (b : body) :
  (currentNote_getLabel api "pythonClientToken" = None /\
   handler api b =
     ([EvGetLabel "pythonClientToken"],
      Throw (TypeError "Cannot read properties of null (reading 'value')")))
  \/
  (exists expected,
     currentNote_getLabel api "pythonClientToken" = Some expected /\
     ~ strictly_equal (pythonClientToken b) expected /\
     handler api b =
       ([EvGetLabel "pythonClientToken"; EvSend (Num (integer 401))], Ok tt))
  \/
  (authenticated api b /\
   exists e,
     executing_message api b = Throw e /\
     handler api b = (preamble api b, Throw e))
  \/
  (authenticated api b /\
   exists msg t e,
     executing_message api b = Ok msg /\
     lookup api b = (t, Throw e) /\
     handler api b = ((preamble api b ++ t)%list, Throw e))
  \/
  (authenticated api b /\
   exists msg t obj ret0 t' r,
     executing_message api b = Ok msg /\
     lookup api b = (t, Ok (obj, ret0)) /\
     invoke api obj (methodName b) (args b) ret0 = (t', r) /\
     handler api b =
       ((preamble api b ++ t ++ t' ++ finish r)%list, outcome (after_try r))).
Proof.
  destruct (currentNote_getLabel api "pythonClientToken") as [expected|] eqn:Hl.
  - destruct (strict_eq (pythonClientToken b) expected) eqn:E.
    + assert (authenticated api b) as Ha by (exists expected; auto).
      destruct (executing_message api b) as [msg|e] eqn:Em.
      * assert (announced api b) as Hn
          by (apply announced_message; now exists msg).
        pose proof (handler_authenticated api b Ha Hn) as Hh.
        destruct (lookup api b) as [t [[obj ret0]|e]].
        -- do 4 right. split; [exact Ha|].
           destruct (invoke api obj (methodName b) (args b) ret0)
             as [t' r] eqn:Ei.
           exists msg, t, obj, ret0, t', r. auto.
        -- do 3 right. left. split; [exact Ha|]. exists msg, t, e. auto.
      * do 2 right. left. split; [exact Ha|]. exists e. split; [reflexivity|].
        apply handler_unannounced; [exact Ha|].
        apply (announce_throws api b e Em).
    + right. left. exists expected. split; [reflexivity|].
      split; [now apply strict_eq_false|].
      exact (handler_rejected api b expected Hl E).
  - left. split; [reflexivity|]. now apply handler_no_label.
Qed.

(** ** Counting *)

Lemma count_app (p : event -> bool) (t1 t2 : list event) :
  count p (t1 ++ t2)%list = count p t1 + count p t2.
Proof. unfold count. now rewrite filter_app, List.length_app. Qed.

Lemma count_none (p : event -> bool) (t : list event) :
  Forall (fun ev => p ev = false) t -> count p t = 0.
Proof.
  unfold count. induction 1 as [|ev t Hev _ IH]; [reflexivity|].
  cbn [filter]. now rewrite Hev.
Qed.

Lemma count_entries (p : event -> bool) (l : list logged) :
  (forall msg, p (EvLog msg) = false) -> count p (map EvLog l) = 0.
Proof.
  intro H. apply count_none. induction l; constructor; auto.
Qed.

(** What follows the [try] statement ends with the one [res.send] of the
    run, or is the [JSON.stringify] of line 45 that threw. *)
Lemma finish_cases (r : result value) :
  (outcome (after_try r) = Ok tt /\
   exists t p,
     finish r = (t ++ [EvSend p])%list /\
     Forall (fun ev => is_send ev = false /\ is_dispatch ev = false) t /\
     exists x, response_of (finish r) = Some x /\
       (statusCode x = 400 \/ statusCode x = 201 \/ statusCode x = 500)%Z) \/
  (exists v e,
     r = Ok v /\ JSON_stringify v (Some replacer) = Throw e /\
     outcome (after_try r) = Throw e /\
     finish r = [EvStringify v true]).
Proof.
  destruct r as [v|e]; unfold finish; cbn [after_try].
  - rewrite respond_run.
    destruct (JSON_stringify v (Some replacer)) as [text|e] eqn:E.
    + left. split; [reflexivity|]. of_pair. destruct (is_null v).
      * eexists [_; _], _. split; [reflexivity|].
        split; [repeat constructor|].
        eexists. split; [reflexivity|]. cbn. auto.
      * eexists [_; _; _; _], _. split; [reflexivity|].
        split; [repeat constructor|].
        exists {| statusCode := 201; body_text := text |}.
        split; [now destruct text|]. cbn. auto.
    + right. exists v, e. auto.
  - left. split; [reflexivity|].
    eexists [_; _], _. split; [reflexivity|]. split; [repeat constructor|].
    eexists. split; [reflexivity|]. cbn. auto.
Qed.

Lemma finish_no_dispatch (r : result value) :
  Forall (fun ev => is_dispatch ev = false) (finish r).
Proof.
  destruct r as [v|e]; unfold finish; cbn [after_try];
    [apply respond_not_dispatch|repeat constructor].
Qed.

(** The traces of a run that passed the token check and the lookup. *)
Lemma run_invocation (api : Host) (b : body) (t t' : list event) (obj : handle)
    (ret0 : value) (r : result value) :
  lookup api b = (t, Ok (obj, ret0)) ->
  invoke api obj (methodName b) (args b) ret0 = (t', r) ->
  Forall (fun ev => is_dispatch ev = true) t /\
  Forall (fun ev => is_invocation ev = true) t' /\
  trace (invocation api b) = (t ++ t')%list /\
  outcome (invocation api b) = r.
Proof.
  intros Hl Hi. split; [|split].
  - pose proof (lookup_dispatch api b) as H. now rewrite Hl in H.
  - pose proof (invoke_invocation api obj (methodName b) (args b) ret0)
      as H. now rewrite Hi in H.
  - unfold invocation. rewrite Hl. run. now rewrite Hi.
Qed.

Lemma response_of_run (api : Host) (b : body) (t t' rest : list event) :
  Forall (fun ev => is_dispatch ev = true) t ->
  Forall (fun ev => is_invocation ev = true) t' ->
  response_of (preamble api b ++ t ++ t' ++ rest)%list = response_of rest.
Proof.
  intros Ht Ht'. unfold response_of.
  rewrite res_calls_skip by apply preamble_not_res.
  rewrite res_calls_skip by now apply dispatch_not_res.
  now rewrite res_calls_skip by now apply invocation_not_res.
Qed.

(** ** Extra properties *)

(** X1.  When the [pythonClientToken] label does not exist on the current
    note, no request is answered, whatever its token: reading [.value] of
    the missing label (line 6) throws, the script ends with that TypeError
    after the label lookup alone, and nothing is sent or logged. *)
Theorem X1_missing_label (api : Host) (b : body) :
  currentNote_getLabel api "pythonClientToken" = None ->
  trace (handler api b) = [EvGetLabel "pythonClientToken"] /\
  (exists e, outcome (handler api b) = Throw e) /\
  response_of (trace (handler api b)) = None /\
  log_of (trace (handler api b)) = [] /\
  ~ authenticated api b.
Proof.
  intro Hl. rewrite (handler_no_label api b Hl).
  repeat split; [now eexists|].
  intros (expected & He & _). congruence.
Qed.

Lemma X1_missing_label_witness :
  currentNote_getLabel no_label_host "pythonClientToken" = None /\
  response_of (trace (handler no_label_host call_getTitle)) = None /\
  response_of (trace (handler no_label_host no_token)) = None.
Proof.
  split; [reflexivity|]. split.
  - apply (X1_missing_label no_label_host call_getTitle eq_refl).
  - apply (X1_missing_label no_label_host no_token eq_refl).
Defined.

(** X2.  A run that returns normally has sent exactly one response, as the
    last thing it did, with status 401, 400, 201 or 500; a run that ends
    with an exception has called neither [res.status] nor [res.send]. *)
Theorem X2_one_response (api : Host) (b : body) :
  match outcome (handler api b) with
  | Ok _ =>
      count is_send (trace (handler api b)) = 1 /\
      (exists t p, trace (handler api b) = (t ++ [EvSend p])%list) /\
      (exists x, response_of (trace (handler api b)) = Some x /\
         (statusCode x = 401 \/ statusCode x = 400 \/
          statusCode x = 201 \/ statusCode x = 500)%Z)
  | Throw _ =>
      count is_res (trace (handler api b)) = 0 /\
      response_of (trace (handler api b)) = None
  end.
Proof.
  destruct (handler_runs api b)
    as [(_ & ->)|[(x & _ & _ & ->)|[(_ & e & _ & ->)
       |[(_ & msg & t & e & _ & Hl & ->)
       |(_ & msg & t & obj & ret0 & t' & r & _ & Hl & Hi & ->)]]]];
    of_pair.
  - split; reflexivity.
  - split; [reflexivity|].
    split; [now exists [EvGetLabel "pythonClientToken"], (Num (integer 401))|].
    eexists. split; [reflexivity|]. cbn. auto.
  - split; [apply count_none|apply res_calls_none]; apply preamble_not_res.
  - pose proof (lookup_dispatch api b) as Hd. rewrite Hl in Hd.
    cbn [trace fst] in Hd.
    assert (Forall (fun ev => is_res ev = false) (preamble api b ++ t)%list)
      as Hq
      by (apply Forall_app; split;
          [apply preamble_not_res|now apply dispatch_not_res]).
    split; [now apply count_none|now apply res_calls_none].
  - destruct (run_invocation api b t t' obj ret0 r Hl Hi) as (Ht & Ht' & _).
    assert (Forall (fun ev => is_res ev = false)
              (preamble api b ++ t ++ t')%list) as Hq.
    { apply Forall_app. split; [apply preamble_not_res|].
      apply Forall_app. split;
        [now apply dispatch_not_res|now apply invocation_not_res]. }
    assert (Forall (fun ev => is_send ev = false)
              (preamble api b ++ t ++ t')%list) as Hs.
    { revert Hq. apply Forall_impl. intros [] H; try discriminate; reflexivity. }
    destruct (finish_cases r)
      as [(-> & tf & p & Ef & Hf & x & Hx & Hc)|(v & e & -> & Hj & -> & Ef)].
    + split; [|split].
      * rewrite !List.app_assoc, count_app, <- List.app_assoc.
        rewrite (count_none _ _ Hs), Ef, count_app.
        rewrite (count_none is_send tf); [reflexivity|].
        revert Hf. apply Forall_impl. tauto.
      * rewrite Ef. exists (preamble api b ++ t ++ t' ++ tf)%list, p.
        now rewrite <- !List.app_assoc.
      * rewrite (response_of_run api b t t' _ Ht Ht').
        exists x. split; [exact Hx|tauto].
    + rewrite Ef. split.
      * rewrite !List.app_assoc, count_app, <- List.app_assoc.
        now rewrite (count_none _ _ Hq).
      * now rewrite (response_of_run api b t t' _ Ht Ht').
Qed.

Lemma preamble_finish_on_target (api : Host) (b : body) (r : result value) :
  Forall (on_target api b) (preamble api b) /\
  Forall (on_target api b) (finish r).
Proof.
  split.
  - generalize (preamble_not_dispatch api b). apply Forall_impl.
    intros [] H; try discriminate; exact I.
  - generalize (finish_no_dispatch r). apply Forall_impl.
    intros [] H; try discriminate; exact I.
Qed.

Lemma entries_on_target (api : Host) (b : body) (l : list logged) :
  Forall (on_target api b) (map EvLog l).
Proof. induction l; constructor; auto. exact I. Qed.

(** X4.  In one run the script makes at most one host lookup for the target,
    reads the member at most three times and calls at most one function. *)
Theorem X4_bounded_dispatch (api : Host) (b : body) :
  count is_resolution (trace (handler api b)) <= 1 /\
  count is_read (trace (handler api b)) <= 3 /\
  count is_call (trace (handler api b)) <= 1.
Proof.
  assert (forall p, (forall ev, p ev = true -> is_dispatch ev = true) ->
            count p (preamble api b) = 0) as Hpre.
  { intros p Hp. apply count_none.
    generalize (preamble_not_dispatch api b). apply Forall_impl.
    intros ev H. destruct (p ev) eqn:E; [|reflexivity].
    apply Hp in E. congruence. }
  assert (forall r p, (forall ev, p ev = true -> is_dispatch ev = true) ->
            count p (finish r) = 0) as Hfin.
  { intros r p Hp. apply count_none.
    generalize (finish_no_dispatch r). apply Forall_impl.
    intros ev H. destruct (p ev) eqn:E; [|reflexivity].
    apply Hp in E. congruence. }
  assert (forall ev, is_resolution ev = true -> is_dispatch ev = true) as H1
    by (intros [] H; try discriminate; reflexivity).
  assert (forall ev, is_read ev = true -> is_dispatch ev = true) as H2
    by (intros [] H; try discriminate; reflexivity).
  assert (forall ev, is_call ev = true -> is_dispatch ev = true) as H3
    by (intros [] H; try discriminate; reflexivity).
  destruct (handler_runs api b)
    as [(_ & ->)|[(x & _ & _ & ->)|[(_ & e & _ & ->)
       |[(_ & msg & t & e & _ & Hl & ->)
       |(_ & msg & t & obj & ret0 & t' & r & _ & Hl & Hi & ->)]]]];
    of_pair; try (cbn; lia).
  - rewrite !Hpre by assumption. lia.
  - destruct (lookup_shape api b) as (tr & th & r0 & El & _ & Htr & Hth & _).
    rewrite Hl in El. injection El as -> _.
    rewrite !count_app, !Hpre by assumption.
    destruct Htr as [->|(ev & -> & Hev & _)];
      destruct Hth as [[-> _]|(o & key & -> & _)];
      try (destruct ev; try discriminate); cbn; lia.
  - destruct (lookup_shape api b) as (tr & th & r0 & El & _ & Htr & Hth & _).
    rewrite Hl in El. injection El as -> _.
    destruct (invoke_shape api obj (methodName b) (args b) ret0)
      as (th' & tc & entries & Ei & Hth' & Htc).
    rewrite Hi in Ei. cbn [trace fst] in Ei. subst t'.
    rewrite !count_app, !Hpre, !Hfin by assumption.
    rewrite !count_entries by reflexivity.
    destruct Htr as [->|(ev & -> & Hev & _)];
      destruct Hth as [[-> _]|(o & key & -> & _)];
      destruct Hth' as [->|(o' & key' & _ & _ & [->| ->])];
      destruct Htc as [[-> _]|(f & l & ->)];
      try (destruct ev; try discriminate); cbn; lia.
Qed.

(** X5.  Whatever the host answers, the script touches nothing but the
    target of the request: every lookup is given the [objid] of the request,
    every member read is a read of the member named by [methodName] on the
    object the request resolves to, and every call has that object as
    receiver. *)
Theorem X5_only_the_target (api : Host) (b : body) :
  Forall (on_target api b) (trace (handler api b)).
Proof.
  destruct (handler_runs api b)
    as [(_ & ->)|[(x & _ & _ & ->)|[(_ & e & _ & ->)
       |[(_ & msg & t & e & _ & Hl & ->)
       |(_ & msg & t & obj & ret0 & t' & r & _ & Hl & Hi & ->)]]]];
    of_pair.
  - repeat constructor.
  - repeat constructor.
  - apply (preamble_finish_on_target api b (Throw e)).
  - destruct (lookup_shape api b) as (tr & th & r0 & El & _ & Htr & Hth & _).
    rewrite Hl in El. injection El as -> _.
    destruct (preamble_finish_on_target api b (Throw e)) as [Hp _].
    repeat (apply Forall_app; split); auto.
    + destruct Htr as [->|(ev & -> & _ & Hev)]; repeat constructor; auto.
    + destruct Hth as [[-> _]|(o & key & -> & Ho)]; repeat constructor; tauto.
  - destruct (lookup_shape api b) as (tr & th & r0 & El & _ & Htr & Hth & Hobj).
    rewrite Hl in El. injection El as -> <-.
    specialize (Hobj obj ret0 eq_refl).
    destruct (invoke_shape api obj (methodName b) (args b) ret0)
      as (th' & tc & entries & Ei & Hth' & Htc).
    rewrite Hi in Ei. cbn [trace fst] in Ei. subst t'.
    destruct (preamble_finish_on_target api b r) as [Hp Hf].
    repeat (apply Forall_app; split); auto using entries_on_target.
    + destruct Htr as [->|(ev & -> & _ & Hev)]; repeat constructor; auto.
    + destruct Hth as [[-> _]|(o & key & -> & Ho)]; repeat constructor; tauto.
    + destruct Hth' as [->|(o' & key' & -> & Hk & [->| ->])];
        repeat constructor; auto.
    + destruct Htc as [[-> _]|(f & l & ->)]; repeat constructor; auto.
Qed.

(** X6.  Every attempt is announced in the log before it is made: in any
    run, a host lookup, a member read or a call comes after the log entry
    of line 11 for this request. *)
Theorem X6_logged_before_dispatch (api : Host) (b : body)
    (t1 t2 : list event) (ev : event) :
  trace (handler api b) = (t1 ++ ev :: t2)%list ->
  is_dispatch ev = true ->
  exists msg,
    executing_message api b = Ok msg /\ In (EvLog (LogText msg)) t1.
Proof.
  intros Ht Hev.
  assert (forall pre, Forall (fun x => is_dispatch x = false) pre ->
            pre = (t1 ++ ev :: t2)%list -> False) as Hquiet.
  { intros pre Hq ->. apply Forall_app in Hq as [_ Hq].
    inversion Hq; subst. congruence. }
  assert (forall msg rest,
            executing_message api b = Ok msg ->
            (preamble api b ++ rest)%list = (t1 ++ ev :: t2)%list ->
            In (EvLog (LogText msg)) t1) as Hpre.
  { intros msg rest Hm. rewrite (preamble_message api b msg Hm).
    cbn [app]. intro H.
    destruct t1 as [|x1 [|x2 [|x3 t1]]]; cbn [app] in H.
    - injection H as <- _. discriminate.
    - injection H as _ <- _. discriminate.
    - injection H as _ _ <- _. discriminate.
    - injection H as _ _ <- _. cbn. auto. }
  destruct (handler_runs api b)
    as [(_ & Hh)|[(x & _ & _ & Hh)|[(_ & e & _ & Hh)
       |[(_ & msg & t & e & Hm & _ & Hh)
       |(_ & msg & t & obj & ret0 & t' & r & Hm & _ & _ & Hh)]]]];
    rewrite Hh in Ht; cbn [trace fst] in Ht.
  - exfalso. eapply Hquiet; [|exact Ht]. repeat constructor.
  - exfalso. eapply Hquiet; [|exact Ht]. repeat constructor.
  - exfalso. apply (Hquiet _ (preamble_not_dispatch api b) Ht).
  - exists msg. split; [exact Hm|]. now apply Hpre with t.
  - exists msg. split; [exact Hm|].
    now apply Hpre with (t ++ t' ++ finish r)%list.
Qed.

Lemma X6_logged_before_dispatch_witness :
  trace (handler sample_host call_getTitle) =
    (preamble sample_host call_getTitle ++ EvGetNote (Str "N1")
       :: skipn 4 (trace (handler sample_host call_getTitle)))%list /\
  is_dispatch (EvGetNote (Str "N1")) = true /\
  exists msg,
    executing_message sample_host call_getTitle = Ok msg /\
    In (EvLog (LogText msg)) (preamble sample_host call_getTitle).
Proof.
  split; [reflexivity|]. split; [reflexivity|].
  apply (X6_logged_before_dispatch sample_host call_getTitle
           (preamble sample_host call_getTitle)
           (skipn 4 (trace (handler sample_host call_getTitle)))
           (EvGetNote (Str "N1"))); reflexivity.
Defined.

(** X7.  When the member is a function but [args] is missing or is any
    other primitive, [Reflect.apply] throws before the function is entered:
    the function is not called, and the response is 500 with the TypeError
    as body. *)
Theorem X7_args_not_a_list (api : Host) (b : body) (msg : string)
    (o : object) (key : string) (f : fn) (p : prim) :
  authenticated api b ->
  executing_message api b = Ok msg ->
  outcome (resolve api (objtype b) (objid b)) = Ok (HObject o) ->
  ToPropertyKey api (methodName b) = Ok key ->
  Get api o key = Ok (Fun f) ->
  args b = Prim p ->
  response_of (trace (handler api b)) =
    Some {| statusCode := 500;
            body_text :=
              Some "TypeError: CreateListFromArrayLike called on non-object" |} /\
  count is_call (trace (handler api b)) = 0 /\
  log_of (trace (handler api b)) =
    [LogText msg;
     LogExn (TypeError "CreateListFromArrayLike called on non-object")].
Proof.
  intros Ha Hm Hres Hk Hg Hargs.
  assert (announced api b) as Hn by (apply announced_message; now exists msg).
  set (resolved := trace (resolve api (objtype b) (objid b))).
  assert (handler api b =
    ((preamble api b ++ resolved
        ++ [EvGet o key; EvGet o key; EvGet o key]
        ++ finish (Throw (TypeError "CreateListFromArrayLike called on non-object")))%list,
     Ok tt)) as ->.
  { rewrite (handler_authenticated api b Ha Hn),
      (lookup_member api b o key Hres Hk), Hg,
      (invoke_member api b o key (Fun f) Hk), Hg.
    cbn [typeof String.eqb Ascii.eqb Bool.eqb].
    unfold Reflect_apply, CreateListFromArrayLike. rewrite Hargs. run.
    fold resolved. now rewrite <- !List.app_assoc. }
  of_pair.
  assert (Forall (fun ev => is_dispatch ev = true)
            (resolved ++ [EvGet o key; EvGet o key; EvGet o key])%list) as Hd
    by (apply Forall_app; split; [apply resolve_dispatch|repeat constructor]).
  rewrite (List.app_assoc resolved).
  split; [|split].
  - unfold response_of.
    rewrite res_calls_skip by apply preamble_not_res.
    now rewrite res_calls_skip by (apply dispatch_not_res, Hd).
  - rewrite !count_app.
    rewrite (count_none is_call (preamble api b))
      by apply not_dispatch_not_call, preamble_not_dispatch.
    rewrite (count_none is_call resolved) by apply resolve_not_call.
    reflexivity.
  - rewrite (preamble_message api b msg Hm). cbn [app log_of].
    rewrite log_of_app, (log_of_skip _ (dispatch_not_log _ Hd)).
    reflexivity.
Qed.

Lemma X7_args_not_a_list_witness :
  authenticated sample_host call_without_args /\
  outcome (resolve sample_host (objtype call_without_args)
             (objid call_without_args)) = Ok (HObject (HostObject 1)) /\
  Get sample_host (HostObject 1) "getTitle" = Ok (Fun 7) /\
  args call_without_args = Prim Undefined /\
  count is_call (trace (handler sample_host call_without_args)) = 0.
Proof.
  assert (authenticated sample_host call_without_args) as Ha by with_secret.
  split; [exact Ha|]. repeat (split; [reflexivity|]).
  apply (X7_args_not_a_list sample_host call_without_args _ (HostObject 1)
           "getTitle" 7 Undefined Ha eq_refl eq_refl eq_refl eq_refl eq_refl).
Defined.

(** ** The uncaught exits of the script *)

(** A request that gets past line 11 has a target, be it [null]. *)
Lemma announced_resolves (api : Host) (b : body) :
  announced api b ->
  exists obj, outcome (resolve api (objtype b) (objid b)) = Ok obj.
Proof.
  intro Hn. apply announced_message in Hn as [msg Hm].
  unfold executing_message, text_of in Hm.
  destruct (ToPrimitive api HintDefault (objtype b)) as [p|e] eqn:E;
    [|discriminate].
  rewrite (resolve_primitive api _ (objid b) p E).
  destruct (prim_eqb p (Str "note")); [eexists; reflexivity|].
  destruct (prim_eqb p (Str "branch")); [eexists; reflexivity|].
  destruct (prim_eqb p (Str "attribute")); [eexists; reflexivity|].
  destruct (prim_eqb p (Str "sql")); eexists; reflexivity.
Qed.

(** When the lookup of lines 14-25 throws. *)
Lemma lookup_throws (api : Host) (b : body) (e : exn) :
  announced api b ->
  (outcome (lookup api b) = Throw e <->
   (outcome (resolve api (objtype b) (objid b)) = Ok HNull /\
    e = TypeError ("Cannot read properties of null"
                     ++ reading api (methodName b))) \/
   (outcome (resolve api (objtype b) (objid b)) = Ok HUndefined /\
    e = TypeError ("Cannot read properties of undefined"
                     ++ reading api (methodName b))) \/
   (exists o,
      outcome (resolve api (objtype b) (objid b)) = Ok (HObject o) /\
      (ToPropertyKey api (methodName b) = Throw e \/
       exists key, ToPropertyKey api (methodName b) = Ok key /\
                   Get api o key = Throw e))).
Proof.
  intro Hn. destruct (announced_resolves api b Hn) as [obj Hobj].
  unfold lookup, get_member. revert Hobj. run.
  destruct (resolve api (objtype b) (objid b)) as [t r]. cbn [fst snd].
  intros ->. destruct obj as [| |o]; cbn [fst snd].
  - split.
    + intros [= <-]. left. auto.
    + intros [[_ ->]|[[H _]|(o & H & _)]]; try discriminate. reflexivity.
  - split.
    + intros [= <-]. right. left. auto.
    + intros [[H _]|[[_ ->]|(o & H & _)]]; try discriminate. reflexivity.
  - destruct (ToPropertyKey api (methodName b)) as [key|e'] eqn:Ek;
      cbn [fst snd].
    + destruct (Get api o key) as [v|e'] eqn:Eg; cbn [fst snd]; split.
      * discriminate.
      * intros [[H _]|[[H _]|(o' & [= <-] & [H|(key' & [= <-] & H)])]];
          try discriminate. congruence.
      * intros [= <-]. right. right. exists o. split; [reflexivity|].
        right. exists key. auto.
      * intros [[H _]|[[H _]|(o' & [= <-] & [H|(key' & [= <-] & H)])]];
          try discriminate. congruence.
    + split.
      * intros [= <-]. right. right. exists o. auto.
      * intros [[H _]|[[H _]|(o' & [= <-] & [H|(key' & H & _)])]];
          try discriminate; congruence.
Qed.

(** X3.  Once line 4 has read the fields of the body, the script ends with
    an uncaught exception in exactly these cases: the token label is
    missing (line 6); or the request passed the token check and a field has
    no text or [args] cannot be serialized (line 11); or it got past line
    11 and its target resolved to [null] or [undefined], or the key has no
    text, or the first read of the member threw (line 25); or the
    invocation completed with a result on which [JSON.stringify] throws
    (line 45).  The exception is then the one of the language, or what the
    read threw. *)
Theorem X3_uncaught (api : Host) (b : body) (e : exn) :
  outcome (handler api b) = Throw e <->
  (currentNote_getLabel api "pythonClientToken" = None /\
   e = TypeError "Cannot read properties of null (reading 'value')") \/
  (authenticated api b /\
   (executing_message api b = Throw e \/
    (announced api b /\
     ((outcome (resolve api (objtype b) (objid b)) = Ok HNull /\
       e = TypeError ("Cannot read properties of null"
                        ++ reading api (methodName b))) \/
      (outcome (resolve api (objtype b) (objid b)) = Ok HUndefined /\
       e = TypeError ("Cannot read properties of undefined"
                        ++ reading api (methodName b))) \/
      (exists o,
         outcome (resolve api (objtype b) (objid b)) = Ok (HObject o) /\
         (ToPropertyKey api (methodName b) = Throw e \/
          exists key, ToPropertyKey api (methodName b) = Ok key /\
                      Get api o key = Throw e)) \/
      (exists v,
         outcome (invocation api b) = Ok v /\
         JSON_stringify v (Some replacer) = Throw e))))).
Proof.
  split.
  - intro He.
    destruct (handler_runs api b)
      as [(Hl & Hh)|[(x & _ & _ & Hh)|[(Ha & e' & Hm & Hh)
         |[(Ha & msg & t & e' & Hm & Hl & Hh)
         |(Ha & msg & t & obj & ret0 & t' & r & Hm & Hl & Hi & Hh)]]]];
      rewrite Hh in He; cbn [outcome snd] in He; try discriminate.
    + left. split; [exact Hl|]. now injection He as <-.
    + right. split; [exact Ha|]. left. congruence.
    + assert (announced api b) as Hn
        by (apply announced_message; now exists msg).
      right. split; [exact Ha|]. right. split; [exact Hn|].
      assert (outcome (lookup api b) = Throw e) as Ht
        by (rewrite Hl; cbn [outcome snd]; congruence).
      apply (lookup_throws api b e Hn) in Ht. tauto.
    + assert (announced api b) as Hn
        by (apply announced_message; now exists msg).
      right. split; [exact Ha|]. right. split; [exact Hn|].
      do 3 right.
      destruct (run_invocation api b t t' obj ret0 r Hl Hi) as (_ & _ & _ & Hr).
      assert (outcome (after_try r) = Throw e) as He' by exact He.
      destruct (finish_cases r) as [(Ho & _)|(v & e' & -> & Hj & Ho & _)];
        [congruence|].
      exists v. split; [exact Hr|]. congruence.
  - intros [[Hl ->]|[Ha [Hm|[Hn Hc]]]].
    + now rewrite (handler_no_label api b Hl).
    + rewrite (handler_unannounced api b e Ha); [reflexivity|].
      apply (announce_throws api b e Hm).
    + destruct Hc as [Hc|[Hc|[Hc|(v & Hv & Hj)]]].
      * rewrite (proj1 (handler_lookup_escapes api b e Ha Hn
                   (proj2 (lookup_throws api b e Hn) (or_introl Hc)))).
        reflexivity.
      * rewrite (proj1 (handler_lookup_escapes api b e Ha Hn
                   (proj2 (lookup_throws api b e Hn) (or_intror (or_introl Hc))))).
        reflexivity.
      * rewrite (proj1 (handler_lookup_escapes api b e Ha Hn
                   (proj2 (lookup_throws api b e Hn) (or_intror (or_intror Hc))))).
        reflexivity.
      * rewrite (handler_result api b v Ha Hn Hv). of_pair.
        now rewrite respond_outcome, Hj.
Qed.

Lemma X3_uncaught_witness :
  outcome (handler sample_host call_unknown_note) =
    Throw (TypeError "Cannot read properties of null (reading 'getTitle')") /\
  outcome (handler sample_host id_without_text) = Throw not_primitive /\
  outcome (handler sample_host read_req) = Throw circular_structure.
Proof.
  assert (authenticated sample_host call_unknown_note) as Ha by with_secret.
  assert (authenticated sample_host id_without_text) as Ha' by with_secret.
  assert (authenticated sample_host read_req) as Ha'' by with_secret.
  split; [|split].
  - apply (proj2 (X3_uncaught sample_host call_unknown_note _)).
    right. split; [exact Ha|]. right. split; [reflexivity|].
    left. split; reflexivity.
  - apply (proj2 (X3_uncaught sample_host id_without_text _)).
    right. split; [exact Ha'|]. left. reflexivity.
  - apply (proj2 (X3_uncaught sample_host read_req _)).
    right. split; [exact Ha''|]. right. split; [reflexivity|].
    do 3 right. exists cyclic_req. split; reflexivity.
Defined.

(** ** What the body of a 201 response carries *)








(** ** The [objid] of a request, and the log against the response *)






(** X12.  The log tells which response was sent.  After a 401 nothing is
    logged.  Otherwise the log starts with the entry of line 11, goes on
    with what the called function wrote, if one was called, and ends: for a
    500, with the exception whose string form is the body; for a 400, with
    the text [Return value null]; for a 201, with [Return value ] followed
    by the body, or by [undefined] when there is no body. *)
Theorem X12_log_matches_response (api : Host) (b : body) (x : response) :
  response_of (trace (handler api b)) = Some x ->
  (statusCode x = 401%Z /\ log_of (trace (handler api b)) = []) \/
  exists msg,
    executing_message api b = Ok msg /\
    ((statusCode x = 500%Z /\
      exists e, body_text x = Some (exn_to_string e) /\
                log_of (trace (handler api b)) =
                  (LogText msg :: host_log api b ++ [LogExn e])%list) \/
     (statusCode x = 400%Z /\ body_text x = None /\
      log_of (trace (handler api b)) =
        (LogText msg :: host_log api b
           ++ [LogText "Return value null"])%list) \/
     (statusCode x = 201%Z /\
      log_of (trace (handler api b)) =
        (LogText msg :: host_log api b
           ++ [LogText (concat_result "Return value " (body_text x))])%list)).
Proof.
  destruct (handler_runs api b)
    as [(_ & ->)|[(y & _ & _ & ->)|[(_ & e & _ & ->)
       |[(_ & msg & t & e & _ & Hl & ->)
       |(_ & msg & t & obj & ret0 & t' & r & Hm & Hl & Hi & ->)]]]];
    of_pair.
  - discriminate.
  - intros [= <-]. now left.
  - unfold response_of. rewrite res_calls_none by apply preamble_not_res.
    discriminate.
  - pose proof (lookup_dispatch api b) as Hd. rewrite Hl in Hd.
    cbn [trace fst] in Hd. unfold response_of.
    rewrite res_calls_none; [discriminate|].
    apply Forall_app. split; [apply preamble_not_res|].
    now apply dispatch_not_res.
  - destruct (run_invocation api b t t' obj ret0 r Hl Hi)
      as (Ht & Ht' & Etr & Er).
    rewrite (response_of_run api b t t' _ Ht Ht').
    intro Hx. right. exists msg. split; [exact Hm|].
    assert (log_of (preamble api b ++ t ++ t' ++ finish r)%list =
            (LogText msg :: host_log api b ++ log_of (finish r))%list) as ->.
    { rewrite (preamble_message api b msg Hm). cbn [app log_of].
      unfold host_log. now rewrite Etr, List.app_assoc, log_of_app. }
    revert Hx. unfold finish. destruct r as [v|e]; cbn [after_try].
    + rewrite response_of_respond, log_of_respond.
      destruct (JSON_stringify v (Some replacer)) as [text|e] eqn:Ej;
        [|discriminate].
      destruct (is_null v) eqn:En; intros [= <-]; cbn [statusCode body_text].
      * right. left. repeat split.
        destruct v as [[]| | | |]; try discriminate. cbn in Ej.
        now injection Ej as <-.
      * right. right. auto.
    + intros [= <-]. left. split; [reflexivity|]. now exists e.
Qed.

Lemma X12_log_matches_response_witness :
  response_of (trace (handler sample_host call_log)) =
    Some {| statusCode := 201; body_text := None |} /\
  log_of (trace (handler sample_host call_log)) =
    [LogText ("Executing undefined(undefined).log(["
                ++ QuoteJSONString "x" ++ "])");
     LogText "x";
     LogText "Return value undefined"] /\
  host_log sample_host call_log = [LogText "x"].
Proof.
  split; [reflexivity|]. split; [|reflexivity].
  destruct (X12_log_matches_response sample_host call_log _ eq_refl)
    as [[H _]|(msg & Hm & [[H _]|[[H _]|[_ H]]])]; try discriminate H.
  rewrite H. injection Hm as <-. reflexivity.
Defined.

(** ** Requests that are not what the client sends *)

(** X13.  A field of the body that is an object with an own [toString]
    that is not a function (as [{"toString": 1}] is) has no text: for a
    request that passed the token check and has such an [objid], line 11
    throws a TypeError that nothing catches, before anything is logged,
    looked up or sent. *)
Theorem X13_field_without_text (api : Host) (b : body) (kind : prim)
    (props : list (string * value)) :
  authenticated api b ->
  objtype b = Prim kind ->
  objid b = Obj props ->
  converts_by_code props = false ->
  has_key "toString" props = true ->
  handler api b = ([EvGetLabel "pythonClientToken"], Throw not_primitive) /\
  response_of (trace (handler api b)) = None /\
  log_of (trace (handler api b)) = [].
Proof.
  intros Ha Hk Hid Hc Ht.
  assert (announce api b = ([], Throw not_primitive)) as Hn.
  { unfold announce, text_of. rewrite Hk, Hid. cbn [ToPrimitive].
    now rewrite Hc, Ht. }
  assert (handler api b = ([EvGetLabel "pythonClientToken"], Throw not_primitive))
    as ->.
  { rewrite (handler_unannounced api b not_primitive Ha) by now rewrite Hn.
    unfold preamble. now rewrite Hn. }
  repeat split.
Qed.

Lemma X13_field_without_text_witness :
  authenticated sample_host id_without_text /\
  objid id_without_text = Obj [("toString", Prim (Num (integer 1)))] /\
  handler sample_host id_without_text =
    ([EvGetLabel "pythonClientToken"], Throw not_primitive).
Proof.
  assert (authenticated sample_host id_without_text) as Ha by with_secret.
  split; [exact Ha|]. split; [reflexivity|].
  apply (X13_field_without_text sample_host id_without_text (Str "note")
           [("toString", Prim (Num (integer 1)))] Ha); reflexivity.
Defined.

(** X14.  When the invocation completes with a result on which
    [JSON.stringify] throws, the member has been read and the function, if
    any, has run, but the request gets no response: the script ends at line
    45, after the log entry of line 11 and what the function logged, without
    a return value entry. *)
Theorem X14_result_without_text (api : Host) (b : body) (msg : string)
    (v : value) (e : exn) :
  authenticated api b ->
  executing_message api b = Ok msg ->
  outcome (invocation api b) = Ok v ->
  JSON_stringify v (Some replacer) = Throw e ->
  handler api b =
    ((preamble api b ++ trace (invocation api b)
        ++ [EvStringify v true])%list, Throw e) /\
  response_of (trace (handler api b)) = None /\
  log_of (trace (handler api b)) = (LogText msg :: host_log api b)%list.
Proof.
  intros Ha Hm Hv Hj.
  assert (announced api b) as Hn by (apply announced_message; now exists msg).
  destruct (handler_result_response api b msg v Ha Hm Hv) as [Hr Hl].
  rewrite Hr, Hl, response_of_respond, log_of_respond, Hj.
  rewrite (handler_result api b v Ha Hn Hv), respond_run, Hj.
  repeat split. now rewrite List.app_nil_r.
Qed.

Lemma X14_result_without_text_witness :
  authenticated sample_host read_req /\
  outcome (invocation sample_host read_req) = Ok cyclic_req /\
  JSON_stringify cyclic_req (Some replacer) = Throw circular_structure /\
  response_of (trace (handler sample_host read_req)) = None.
Proof.
  assert (authenticated sample_host read_req) as Ha by with_secret.
  split; [exact Ha|]. do 2 (split; [reflexivity|]).
  apply (X14_result_without_text sample_host read_req _ cyclic_req
           circular_structure Ha eq_refl eq_refl eq_refl).
Defined.

(** X15.  The comparisons of lines 15-21 are loose: an [objtype] that is
    an array with one string in it resolves as that string does, whatever
    the host and the [objid]. *)
Theorem X15_array_of_a_tag (api : Host) (s : string) (id : value) :
  resolve api (Arr [Prim (Str s)]) id = resolve api (Prim (Str s)) id /\
  text_of api (Arr [Prim (Str s)]) = Ok s.
Proof.
  split; [|reflexivity].
  now rewrite (resolve_primitive api (Arr [Prim (Str s)]) id (Str s) eq_refl),
              (resolve_primitive api (Prim (Str s)) id (Str s) eq_refl).
Qed.

(** X16.  A number result is sent as the language prints it, and the text
    decodes to the same number: an integer of up to 21 digits in full, a
    fraction with a point, a large or small number in exponent form.  NaN
    and the infinities are sent as [null]. *)
Theorem X16_number_texts (x : number) :
  well_formed_number x = true ->
  JSON_stringify (Prim (Num x)) (Some replacer) =
    Ok (Some (if is_finite x then number_to_string x else "null")) /\
  (is_finite x = true ->
   JSON_parse (number_to_string x) = Some (Prim (Num x))) /\
  (is_finite x = false ->
   JSON_parse "null" = Some (Prim Null) /\ as_json (Prim (Num x)) = Prim Null).
Proof.
  intro Hw. split; [reflexivity|]. split.
  - intro Hf.
    assert (json_safe (Prim (Num x)) = true) as Hs
      by (cbn [json_safe]; now rewrite Hf, Hw).
    destruct (JSON_parse_serialize _ Hs) as (text & Ht & Hp).
    cbn [serialize] in Ht. rewrite Hf in Ht. now injection Ht as <-.
  - intro Hf. split; [reflexivity|]. cbn [as_json]. now rewrite Hf.
Qed.

Lemma X16_number_texts_witness :
  well_formed_number (Finite false "1" 22) = true /\
  number_to_string (Finite false "1" 22) = "1e+21" /\
  JSON_parse "1e+21" = Some (Prim (Num (Finite false "1" 22))) /\
  JSON_parse "1.5" = Some (Prim (Num (Finite false "15" 1))) /\
  JSON_stringify (Prim (Num NaN)) (Some replacer) = Ok (Some "null").
Proof.
  split; [reflexivity|]. split; [reflexivity|]. split; [|split].
  - apply (proj1 (proj2 (X16_number_texts (Finite false "1" 22) eq_refl))
             eq_refl).
  - apply (proj1 (proj2 (X16_number_texts (Finite false "15" 1) eq_refl))
             eq_refl).
  - apply (proj1 (X16_number_texts NaN eq_refl)).
Defined.
